(** * The paper-trading ledger of [src/paper.ts]

    A shallow embedding of the ledger ([mark], [ensurePos], [applyFill],
    [placeOrder], [getState], [reset]) together with the properties its
    specification states about it.

    ** Numbers

    The ledger computes on JavaScript numbers.  Two models of them are
    given, and the ledger is embedded over each.

    [num] has the three special values [NaN], [PInf], [NInf] and the finite
    values [Fin q] with [q] an exact rational.  The special values are kept
    because the control flow of the ledger depends on them (truthiness
    tests, comparisons that are false on [NaN], [Math.sign]).  Finite
    arithmetic is exact there, and the two zeros of binary64 are one value.
    This model carries the statements that do not depend on how a finite
    result is rounded: which branch runs, which fields are written, how the
    history grows, and runs on small integers.

    [B64] has the binary64 values themselves ([spec_float] at precision 53
    and maximal exponent 1024), with every sum, difference, product and
    quotient rounded to nearest, ties to even, and with overflow, underflow
    and signed zeros.  The statements about the values the ledger computes
    and compares are made there.

    ** Objects used as maps

    [state.lastPrice] and [state.positions] are finite maps from market
    names to values; a missing key reads as [undefined], here [None].
    The maps hold the own properties of the two objects.  A market whose
    name is a property name of [Object.prototype] is not read or written
    as a key, so the statements on the binary64 ledger are made for
    markets that are ordinary keys ([ordinary_key]).

    ** State

    The ledger is one mutable object.  Every operation takes the state it
    starts from and returns the state it leaves; [placeOrder] returns the
    state also when it throws, since [mark] may have written to it by
    then.  [Date.now()] is an argument of [placeOrder]. *)

From Stdlib Require Import ZArith QArith Qcanon Qcabs Qround Lqa SpecFloat.
From stdpp Require Import base numbers option list strings gmap fin_maps.

Local Open Scope Qc_scope.

(** ** JavaScript numbers *)

Inductive num : Type :=
  | NaN
  | PInf
  | NInf
  | Fin (q : Qc).

Global Instance num_eq_dec : EqDecision num.
Proof. solve_decision. Defined.

Definition of_Z (z : Z) : num := Fin (Qc_of_Z z).

(** Truthiness of a number: everything but [0] and [NaN]. *)
Definition truthy (x : num) : bool :=
  match x with
  | NaN => false
  | PInf | NInf => true
  | Fin q => negb (bool_decide (q = 0))
  end.

Definition num_neg (x : num) : num :=
  match x with
  | NaN => NaN
  | PInf => NInf
  | NInf => PInf
  | Fin q => Fin (- q)
  end.

Definition num_add (x y : num) : num :=
  match x, y with
  | NaN, _ | _, NaN => NaN
  | PInf, NInf | NInf, PInf => NaN
  | PInf, _ | _, PInf => PInf
  | NInf, _ | _, NInf => NInf
  | Fin a, Fin b => Fin (a + b)
  end.

Definition num_sub (x y : num) : num := num_add x (num_neg y).

(** An infinity ([pos] tells which one) multiplied by the finite [q]. *)
Definition inf_scale (pos : bool) (q : Qc) : num :=
  if bool_decide (q = 0) then NaN
  else if bool_decide (0 < q)
       then (if pos then PInf else NInf)
       else (if pos then NInf else PInf).

Definition num_mul (x y : num) : num :=
  match x, y with
  | NaN, _ | _, NaN => NaN
  | PInf, PInf | NInf, NInf => PInf
  | PInf, NInf | NInf, PInf => NInf
  | PInf, Fin q | Fin q, PInf => inf_scale true q
  | NInf, Fin q | Fin q, NInf => inf_scale false q
  | Fin a, Fin b => Fin (a * b)
  end.

(** An infinity divided by the finite [q]; a zero divisor is read as [+0]. *)
Definition inf_over (pos : bool) (q : Qc) : num :=
  if bool_decide (q < 0)
  then (if pos then NInf else PInf)
  else (if pos then PInf else NInf).

Definition num_div (x y : num) : num :=
  match x, y with
  | NaN, _ | _, NaN => NaN
  | (PInf | NInf), (PInf | NInf) => NaN
  | PInf, Fin q => inf_over true q
  | NInf, Fin q => inf_over false q
  | Fin _, (PInf | NInf) => Fin 0
  | Fin a, Fin b =>
      if bool_decide (b = 0)
      then (if bool_decide (a = 0) then NaN
            else if bool_decide (0 < a) then PInf else NInf)
      else Fin (a / b)
  end.

(** [x < y]; false as soon as one side is [NaN]. *)
Definition num_lt (x y : num) : bool :=
  match x, y with
  | NaN, _ | _, NaN => false
  | _, NInf => false
  | PInf, _ => false
  | NInf, _ => true
  | _, PInf => true
  | Fin a, Fin b => bool_decide (a < b)
  end.

Definition num_gt (x y : num) : bool := num_lt y x.

(** [x === y] on numbers; false as soon as one side is [NaN]. *)
Definition num_eq (x y : num) : bool :=
  match x, y with
  | NaN, _ | _, NaN => false
  | PInf, PInf | NInf, NInf => true
  | Fin a, Fin b => bool_decide (a = b)
  | _, _ => false
  end.

(** [x !== y]. *)
Definition num_ne (x y : num) : bool := negb (num_eq x y).

(** [x <= y]. *)
Definition num_le (x y : num) : bool := num_lt x y || num_eq x y.

(** [Math.abs]. *)
Definition num_abs (x : num) : num :=
  match x with
  | NaN => NaN
  | PInf | NInf => PInf
  | Fin q => Fin (Qcabs q)
  end.

(** [Math.sign]. *)
Definition num_sign (x : num) : num :=
  match x with
  | NaN => NaN
  | PInf => Fin 1
  | NInf => Fin (- 1)
  | Fin q =>
      if bool_decide (0 < q) then Fin 1
      else if bool_decide (q < 0) then Fin (- 1) else Fin 0
  end.

(** [Math.min] of two numbers. *)
Definition num_min (x y : num) : num :=
  match x, y with
  | NaN, _ | _, NaN => NaN
  | _, _ => if num_lt y x then y else x
  end.

(** ** Data model *)

Inductive Side : Type := buy | sell.

Global Instance Side_eq_dec : EqDecision Side.
Proof. solve_decision. Defined.


(** Profit per unit when exposure [b] entered at [e] is reduced at [p]. *)
Definition pnl_per_unit (b e p : Qc) : Qc :=
  if bool_decide (0 < b) then p - e else e - p.

Definition Qc_min (x y : Qc) : Qc := if bool_decide (y < x) then y else x.

(** The signed size [dir * qty] of a fill, on rationals. *)
Definition delta (sd : Side) (q : Qc) : Qc :=
  match sd with buy => 1 * q | sell => (- 1) * q end.

Abbreviation Market := string.

Inductive PosSide : Type := long | short | flat.

Global Instance PosSide_eq_dec : EqDecision PosSide.
Proof. solve_decision. Defined.

Record Fill : Type := mkFill {
  f_ts : Z;
  f_market : Market;
  f_side : Side;
  f_qty : num;
  f_price : num;
  f_notional : num;
  f_leverage : num
}.

Global Instance Fill_eq_dec : EqDecision Fill.
Proof. solve_decision. Defined.

Record Position : Type := mkPosition {
  side : PosSide;
  base : num;
  entry : num;
  leverage : num;
  realizedPnl : num
}.

Global Instance Position_eq_dec : EqDecision Position.
Proof. solve_decision. Defined.

Record Balances : Type := mkBalances { USDC : num }.

Global Instance Balances_eq_dec : EqDecision Balances.
Proof. solve_decision. Defined.

Record State : Type := mkState {
  balances : Balances;
  lastPrice : gmap Market num;
  positions : gmap Market Position;
  trades : list Fill
}.

Global Instance State_eq_dec : EqDecision State.
Proof. solve_decision. Defined.

Definition set_lastPrice (lp : gmap Market num) (st : State) : State :=
  mkState (balances st) lp (positions st) (trades st).

Definition set_positions (ps : gmap Market Position) (st : State) : State :=
  mkState (balances st) (lastPrice st) ps (trades st).

Definition set_trades (ts : list Fill) (st : State) : State :=
  mkState (balances st) (lastPrice st) (positions st) ts.

(** The request of [placeOrder].  A field that is [null] or [undefined] in
    the request is [None]; a field that is present holds the number that
    [Number(...)] makes of it. *)
Record Params : Type := mkParams {
  p_market : Market;
  p_order : Side;
  p_sizeUsd : option num;
  p_size : option num;
  p_price : option num;
  p_leverage : option num
}.

(** The errors [placeOrder] throws, named after their messages.
    [TypeError] is what reading a field of [undefined] would raise. *)
Inductive Rejection : Type :=
  | NoPriceFor (market : Market)
  | InvalidQty
  | ExceedsNotionalLimit (notional maxNotional : num)
  | TypeError.

Record PositionView : Type := mkPositionView {
  v_side : PosSide;
  v_base : num;
  v_entry : num;
  v_realizedPnl : num;
  v_unrealizedPnl : num
}.

Record OrderResult : Type := mkOrderResult {
  r_market : Market;
  r_side : Side;
  r_qty : num;
  r_price : num;
  r_leverage : num;
  r_position : PositionView;
  r_balances : Balances;
  r_trades : list Fill
}.

Global Instance Rejection_eq_dec : EqDecision Rejection.
Proof. solve_decision. Defined.

Global Instance PositionView_eq_dec : EqDecision PositionView.
Proof. solve_decision. Defined.

Global Instance OrderResult_eq_dec : EqDecision OrderResult.
Proof. solve_decision. Defined.

(** [xs.slice(-k)]: the last [k] elements. *)
Definition slice_last {A : Type} (k : nat) (xs : list A) : list A :=
  drop (length xs - k) xs.

(** ** The ledger *)

Section Ledger.

(** [startUSDC] and [defaultLev] are read from the environment once, at
    start-up. *)
Variable startUSDC : num.
Variable defaultLev : num.

Definition initial_state : State :=
  mkState (mkBalances startUSDC) ∅ ∅ [].

Definition mark (market : Market) (price : option num) (st : State)
  : option num * State :=
  let st :=
    match price with
    | Some p =>
        if truthy p then set_lastPrice (<[market := p]> (lastPrice st)) st
        else st
    | None => st
    end in
  (lastPrice st !! market, st).

Definition fresh_position : Position :=
  mkPosition flat (Fin 0) (Fin 0) defaultLev (Fin 0).

Definition ensurePos (market : Market) (st : State) : Position * State :=
  match positions st !! market with
  | Some pos => (pos, st)
  | None =>
      (fresh_position,
       set_positions (<[market := fresh_position]> (positions st)) st)
  end.

Definition side_of_base (b : num) : PosSide :=
  if num_gt b (Fin 0) then long
  else if num_lt b (Fin 0) then short else flat.

(** The body of [applyFill] on the position object [pos]. *)
Definition fill_position (pos : Position) (sd : Side)
    (qty price lev : num) : Position :=
  let dir := match sd with buy => Fin 1 | sell => Fin (- 1) end in
  let baseDelta := num_mul dir qty in
  if num_eq (base pos) (Fin 0)
     || num_eq (num_sign (base pos)) (num_sign baseDelta)
  then
    let oldNotional := num_mul (num_abs (base pos)) (entry pos) in
    let newBase := num_add (base pos) baseDelta in
    let addNotional := num_mul (num_abs baseDelta) price in
    let entry' :=
      if num_ne newBase (Fin 0)
      then num_div (num_add oldNotional addNotional) (num_abs newBase)
      else Fin 0 in
    mkPosition (side_of_base newBase) newBase entry' lev (realizedPnl pos)
  else
    let reduce :=
      num_mul (num_min (num_abs (base pos)) (num_abs baseDelta))
              (num_sign baseDelta) in
    let reducedAbs := num_abs reduce in
    let pnlPerUnit :=
      if num_gt (base pos) (Fin 0)
      then num_sub price (entry pos)
      else num_sub (entry pos) price in
    let realized' := num_add (realizedPnl pos) (num_mul pnlPerUnit reducedAbs) in
    let base' := num_add (base pos) baseDelta in
    if num_eq base' (Fin 0)
    then mkPosition flat base' (Fin 0) (leverage pos) realized'
    else if num_ne (num_sign base') (num_sign reduce)
    then mkPosition (if num_gt base' (Fin 0) then long else short)
                    base' price lev realized'
    else mkPosition (side pos) base' (entry pos) (leverage pos) realized'.

Definition applyFill (market : Market) (sd : Side) (qty price lev : num)
    (st : State) : State :=
  let '(pos, st) := ensurePos market st in
  set_positions
    (<[market := fill_position pos sd qty price lev]> (positions st)) st.

Definition unrealized (pos : Position) (p : num) : num :=
  if num_ne (base pos) (Fin 0)
  then num_mul (if num_gt (base pos) (Fin 0)
                then num_sub p (entry pos)
                else num_sub (entry pos) p)
               (num_abs (base pos))
  else Fin 0.

(** The quantity [placeOrder] resolves at price [p]: [sizeUsd / p] when a
    [sizeUsd] was given, else [Number(params.size ?? 0)]. *)
Definition resolve_qty (params : Params) (p : num) : num :=
  match p_sizeUsd params with
  | Some sizeUsd => num_div sizeUsd p
  | None => default (Fin 0) (p_size params)
  end.

(** The quantity test of [placeOrder]: [!qty || qty <= 0]. *)
Definition invalid_qty (qty : num) : bool :=
  negb (truthy qty) || num_le qty (Fin 0).

(** [placeOrder] at clock reading [now]: what it returns or throws, and
    the state it leaves. *)
Definition placeOrder (now : Z) (params : Params) (st : State)
  : (Rejection + OrderResult) * State :=
  let market := p_market params in
  let sd := p_order params in
  let lev := default defaultLev (p_leverage params) in
  let pHint := p_price params in
  let '(op, st) := mark market pHint st in
  match op with
  | None => (inl (NoPriceFor market), st)
  | Some p =>
      if negb (truthy p) then (inl (NoPriceFor market), st) else
      let qty := resolve_qty params p in
      if invalid_qty qty then (inl InvalidQty, st) else
      let notional := num_mul qty p in
      let maxNotional := num_mul (USDC (balances st)) lev in
      if num_gt notional maxNotional
      then (inl (ExceedsNotionalLimit notional maxNotional), st) else
      let st := applyFill market sd qty p lev st in
      match positions st !! market with
      | None => (inl TypeError, st)
      | Some pos =>
          let uPnl := unrealized pos p in
          let fill := mkFill now market sd qty p notional lev in
          let st := set_trades (trades st ++ [fill]) st in
          (inr (mkOrderResult market sd qty p lev
                  (mkPositionView (side pos) (base pos) (entry pos)
                                  (realizedPnl pos) uPnl)
                  (balances st) (slice_last 5 (trades st))),
           st)
      end
  end.

(** The fill record [placeOrder] appends. *)
Definition fill_of (now : Z) (params : Params) (qty p : num) : Fill :=
  mkFill now (p_market params) (p_order params) qty p (num_mul qty p)
         (default defaultLev (p_leverage params)).

Definition getState (st : State) : State := st.

Definition reset (st : State) : State :=
  mkState (mkBalances startUSDC) ∅ ∅ [].

End Ledger.

(** ** A sample ledger

    The configuration defaults of the source: 10000 USDC and leverage 2. *)

Definition USDC0 : num := of_Z 10000.
Definition lev0 : num := of_Z 2.

Definition ledger0 : State := initial_state USDC0.

(** An order for [size] units at [price], with an optional leverage. *)
Definition order_size (market : Market) (sd : Side) (size price : num)
    (lev : option num) : Params :=
  mkParams market sd None (Some size) (Some price) lev.

(** The ledger after a buy of [size] at [price] on the empty ledger. *)
Definition ledger_long (size price : Z) : State :=
  applyFill lev0 "BTC" buy (of_Z size) (of_Z price) lev0 ledger0.

(** [placeOrder] on each request in turn, at clock readings [now],
    [now + 1], ...: the outcomes, oldest first, and the final state. *)
Fixpoint placeOrders (defaultLev : num) (now : Z) (reqs : list Params)
    (st : State) : list (Rejection + OrderResult) * State :=
  match reqs with
  | [] => ([], st)
  | r :: reqs =>
      let '(o, st) := placeOrder defaultLev now r st in
      let '(os, st) := placeOrders defaultLev (now + 1) reqs st in
      (o :: os, st)
  end.

(** ** Reading outcomes and states *)

(** A price that is there and truthy. *)
Definition has_price (o : option num) : bool :=
  match o with
  | Some p => truthy p
  | None => false
  end.

Definition accepted (o : Rejection + OrderResult) : bool :=
  match o with
  | inr _ => true
  | inl _ => false
  end.

(** The request [params] with its [size] field replaced. *)
Definition with_size (z : option num) (params : Params) : Params :=
  mkParams (p_market params) (p_order params) (p_sizeUsd params) z
           (p_price params) (p_leverage params).

(** Every stored price is truthy. *)
Definition prices_truthy (st : State) : Prop :=
  forall (m : Market) (p : num), lastPrice st !! m = Some p -> truthy p = true.

(** A position is marked flat exactly when its base is 0, and then its
    entry price is 0. *)
Definition flat_consistent (pos : Position) : Prop :=
  (side pos = flat <-> base pos = Fin 0)
  /\ (base pos = Fin 0 -> entry pos = Fin 0).

Definition positions_flat_consistent (st : State) : Prop :=
  forall (m : Market) (pos : Position),
    positions st !! m = Some pos -> flat_consistent pos.

(** ** The paper routes of the router

    [POST /paper], [POST /paper-tv] and [POST /mexc-tv] check their
    credentials, hand the fields of the request body to [placeOrder] and
    turn what it returns or throws into a response.  The environment
    variables and the header are strings or [undefined]; the passphrase of
    the body is modelled as a string or [None], where [None] also stands
    for a value that is not a string (it is only compared to a string with
    [!==]).  The body itself is taken to be present. *)

Record Env : Type := mkEnv {
  WEBHOOK_SECRET : option string;
  TRADINGVIEW_PASSPHRASE : option string
}.

Inductive Response : Type :=
  | Json200 (r : OrderResult) (exchange : option string)
  | Json401 (error : string)
  | Json400 (e : Rejection).

(** [expected && got !== expected]. *)
Definition credential_refused (expected got : option string) : bool :=
  match expected with
  | Some s => negb (bool_decide (s = "")) && negb (bool_decide (got = Some s))
  | None => false
  end.

(** The [try] block shared by the three routes once the credentials are
    accepted: [res.json(result)] or, when [placeOrder] throws, status 400. *)
Definition respond (defaultLev : num) (exchange : option string) (now : Z)
    (params : Params) (st : State) : Response * State :=
  match placeOrder defaultLev now params st with
  | (inr r, st) => (Json200 r exchange, st)
  | (inl e, st) => (Json400 e, st)
  end.

Definition post_paper (defaultLev : num) (env : Env) (now : Z)
    (header passphrase : option string) (params : Params) (st : State)
  : Response * State :=
  if credential_refused (WEBHOOK_SECRET env) header
  then (Json401 "bad webhook secret", st)
  else if credential_refused (TRADINGVIEW_PASSPHRASE env) passphrase
  then (Json401 "bad passphrase", st)
  else respond defaultLev None now params st.

Definition post_paper_tv (defaultLev : num) (env : Env) (now : Z)
    (passphrase : option string) (params : Params) (st : State)
  : Response * State :=
  if credential_refused (TRADINGVIEW_PASSPHRASE env) passphrase
  then (Json401 "bad passphrase", st)
  else respond defaultLev None now params st.

Definition post_mexc_tv (defaultLev : num) (env : Env) (now : Z)
    (passphrase : option string) (params : Params) (st : State)
  : Response * State :=
  if credential_refused (TRADINGVIEW_PASSPHRASE env) passphrase
  then (Json401 "bad passphrase", st)
  else respond defaultLev (Some "mexc") now params st.

Definition status (r : Response) : Z :=
  match r with
  | Json200 _ _ => 200
  | Json401 _ => 401
  | Json400 _ => 400
  end.

(** ** The volume of a MEXC order ([src/services/dexRegistry.ts])

    [MexcDexAdapter.placeOrder] turns the fields [sizeUsd] and [size] of
    the alert body into the contract volume it submits:
    [Number(body.sizeUsd || body.size || '10')], then
    [String(Math.max(1, Math.floor(sizeUsd)))].  The fields are taken to
    be primitive values; [vol] is modelled as the number that [String]
    is applied to.  How [Number] reads a string is left open. *)

Inductive JsVal : Type :=
  | JsUndefined
  | JsNull
  | JsBool (b : bool)
  | JsNumber (x : num)
  | JsString (s : string).

Definition js_truthy (v : JsVal) : bool :=
  match v with
  | JsUndefined | JsNull => false
  | JsBool b => b
  | JsNumber x => truthy x
  | JsString s => negb (bool_decide (s = ""))
  end.

(** [Math.floor]. *)
Definition num_floor (x : num) : num :=
  match x with
  | Fin q => Fin (Qc_of_Z (Qfloor q))
  | _ => x
  end.

(** [Math.max] of two numbers. *)
Definition num_max (x y : num) : num :=
  match x, y with
  | NaN, _ | _, NaN => NaN
  | _, _ => if num_lt x y then y else x
  end.

Section Adapter.

(** [Number(s)] for a string [s]. *)
Variable Number_of_string : string -> num.

Definition js_Number (v : JsVal) : num :=
  match v with
  | JsUndefined => NaN
  | JsNull => Fin 0
  | JsBool b => if b then Fin 1 else Fin 0
  | JsNumber x => x
  | JsString s => Number_of_string s
  end.

(** [Number(body.sizeUsd || body.size || '10')], where [Number('10')] is
    10. *)
Definition mexc_sizeUsd (sizeUsd size : JsVal) : num :=
  if js_truthy sizeUsd then js_Number sizeUsd
  else if js_truthy size then js_Number size
  else of_Z 10.

(** [Math.max(1, Math.floor(sizeUsd))]. *)
Definition mexc_vol (sizeUsd size : JsVal) : num :=
  num_max (Fin 1) (num_floor (mexc_sizeUsd sizeUsd size)).

End Adapter.

(** ** Sample requests *)

Definition req_buy_5_100 : Params :=
  order_size "BTC" buy (of_Z 5) (of_Z 100) None.


(** A buy of a million units at 100 with a leverage that reads as [NaN]. *)
Definition req_nan_leverage : Params :=
  order_size "BTC" buy (of_Z 1000000) (of_Z 100) (Some NaN).

(** A request that gives both a notional and a size. *)
Definition req_both_sizes : Params :=
  mkParams "BTC" buy (Some (of_Z 500)) (Some (of_Z 7)) (Some (of_Z 100)) None.

(** ** Market names that are ordinary keys

    [state.lastPrice] and [state.positions] are plain objects, so a market
    whose name is a property name of [Object.prototype] does not behave
    like a map key: a read finds the inherited member, and ['__proto__']
    cannot be written.  The finite maps of this file model the own
    properties only.  For a market that is an ordinary key every read and
    write of the two objects is one of an own property, and
    [Object.prototype] is left as it is.  [object_prototype_names] lists
    the built-in members.  What is proved of the ledger in binary64 below
    is stated for markets that are ordinary keys, in a process whose
    [Object.prototype] has no other member: none is added unless an order
    is placed on the market ['__proto__']. *)

Definition object_prototype_names : list string :=
  ["__proto__"; "constructor"; "hasOwnProperty"; "isPrototypeOf";
   "propertyIsEnumerable"; "toLocaleString"; "toString"; "valueOf";
   "__defineGetter__"; "__defineSetter__"; "__lookupGetter__";
   "__lookupSetter__"].

Definition ordinary_key (m : string) : bool :=
  bool_decide (m ∉ object_prototype_names).

(** ** The ledger in binary64

    The same functions of [src/paper.ts], with numbers as IEEE 754 binary64
    values ([spec_float] at precision 53 and maximal exponent 1024): every
    sum, difference, product and quotient is rounded to nearest, ties to
    even, and overflows, underflows and signed zeros are as in the
    program. *)

Global Instance spec_float_eq_dec : EqDecision spec_float.
Proof. solve_decision. Defined.

Module B64.

Definition prec : Z := 53.
Definition emax : Z := 1024.

Definition zero : spec_float := S754_zero false.
Definition one : spec_float := S754_finite false 4503599627370496 (-52).
Definition minus_one : spec_float := S754_finite true 4503599627370496 (-52).

(** The binary64 value of an integer (rounded when it has more than 53
    bits). *)
Definition of_Z (z : Z) : spec_float := binary_normalize prec emax z 0 false.

Definition fadd : spec_float -> spec_float -> spec_float := SFadd prec emax.
Definition fsub : spec_float -> spec_float -> spec_float := SFsub prec emax.
Definition fmul : spec_float -> spec_float -> spec_float := SFmul prec emax.
Definition fdiv : spec_float -> spec_float -> spec_float := SFdiv prec emax.

(** [x < y], [x > y], [x === y], [x !== y], [x <= y]. *)
Definition flt (x y : spec_float) : bool := SFltb x y.
Definition fgt (x y : spec_float) : bool := SFltb y x.
Definition feq (x y : spec_float) : bool := SFeqb x y.
Definition fne (x y : spec_float) : bool := negb (SFeqb x y).
Definition fle (x y : spec_float) : bool := SFleb x y.

(** [Math.abs]. *)
Definition fabs (x : spec_float) : spec_float := SFabs x.

(** [Math.sign]: [NaN] and the zeros are returned as they are. *)
Definition fsign (x : spec_float) : spec_float :=
  match x with
  | S754_nan => S754_nan
  | S754_zero s => S754_zero s
  | S754_infinity s | S754_finite s _ _ => if s then minus_one else one
  end.

(** [Math.min] of two numbers: [NaN] if either is, and [-0] below [+0]. *)
Definition fmin (x y : spec_float) : spec_float :=
  match x, y with
  | S754_nan, _ | _, S754_nan => S754_nan
  | S754_zero sx, S754_zero sy => S754_zero (sx || sy)
  | _, _ => if SFltb y x then y else x
  end.

(** Truthiness: everything but [NaN], [+0] and [-0]. *)
Definition truthy (x : spec_float) : bool :=
  match x with
  | S754_nan | S754_zero _ => false
  | _ => true
  end.

(** The values that are [NaN], a zero or negative. *)
Definition nan_zero_or_negative (x : spec_float) : Prop :=
  match x with
  | S754_nan | S754_zero _ => True
  | S754_infinity s | S754_finite s _ _ => s = true
  end.

Definition positive_value (x : spec_float) : Prop :=
  match x with
  | S754_infinity s | S754_finite s _ _ => s = false
  | _ => False
  end.

Definition negative_value (x : spec_float) : Prop :=
  match x with
  | S754_infinity s | S754_finite s _ _ => s = true
  | _ => False
  end.

Record Fill : Type := mkFill {
  f_ts : Z;
  f_market : Market;
  f_side : Side;
  f_qty : spec_float;
  f_price : spec_float;
  f_notional : spec_float;
  f_leverage : spec_float
}.

Global Instance Fill_eq_dec : EqDecision Fill.
Proof. solve_decision. Defined.

Record Position : Type := mkPosition {
  side : PosSide;
  base : spec_float;
  entry : spec_float;
  leverage : spec_float;
  realizedPnl : spec_float
}.

Global Instance Position_eq_dec : EqDecision Position.
Proof. solve_decision. Defined.

Record Balances : Type := mkBalances { USDC : spec_float }.

Global Instance Balances_eq_dec : EqDecision Balances.
Proof. solve_decision. Defined.

Record State : Type := mkState {
  balances : Balances;
  lastPrice : gmap Market spec_float;
  positions : gmap Market Position;
  trades : list Fill
}.

Global Instance State_eq_dec : EqDecision State.
Proof. solve_decision. Defined.

Definition set_lastPrice (lp : gmap Market spec_float) (st : State) : State :=
  mkState (balances st) lp (positions st) (trades st).

Definition set_positions (ps : gmap Market Position) (st : State) : State :=
  mkState (balances st) (lastPrice st) ps (trades st).

Definition set_trades (ts : list Fill) (st : State) : State :=
  mkState (balances st) (lastPrice st) (positions st) ts.

Record Params : Type := mkParams {
  p_market : Market;
  p_order : Side;
  p_sizeUsd : option spec_float;
  p_size : option spec_float;
  p_price : option spec_float;
  p_leverage : option spec_float
}.

Inductive Rejection : Type :=
  | NoPriceFor (market : Market)
  | InvalidQty
  | ExceedsNotionalLimit (notional maxNotional : spec_float)
  | TypeError.

Global Instance Rejection_eq_dec : EqDecision Rejection.
Proof. solve_decision. Defined.

Record PositionView : Type := mkPositionView {
  v_side : PosSide;
  v_base : spec_float;
  v_entry : spec_float;
  v_realizedPnl : spec_float;
  v_unrealizedPnl : spec_float
}.

Global Instance PositionView_eq_dec : EqDecision PositionView.
Proof. solve_decision. Defined.

Record OrderResult : Type := mkOrderResult {
  r_market : Market;
  r_side : Side;
  r_qty : spec_float;
  r_price : spec_float;
  r_leverage : spec_float;
  r_position : PositionView;
  r_balances : Balances;
  r_trades : list Fill
}.

Global Instance OrderResult_eq_dec : EqDecision OrderResult.
Proof. solve_decision. Defined.

Section Ledger.

Variable startUSDC : spec_float.
Variable defaultLev : spec_float.

Definition initial_state : State :=
  mkState (mkBalances startUSDC) ∅ ∅ [].

Definition mark (market : Market) (price : option spec_float) (st : State)
  : option spec_float * State :=
  let st :=
    match price with
    | Some p =>
        if truthy p then set_lastPrice (<[market := p]> (lastPrice st)) st
        else st
    | None => st
    end in
  (lastPrice st !! market, st).

Definition fresh_position : Position :=
  mkPosition flat zero zero defaultLev zero.

Definition ensurePos (market : Market) (st : State) : Position * State :=
  match positions st !! market with
  | Some pos => (pos, st)
  | None =>
      (fresh_position,
       set_positions (<[market := fresh_position]> (positions st)) st)
  end.

Definition side_of_base (b : spec_float) : PosSide :=
  if fgt b zero then long
  else if flt b zero then short else flat.

(** [dir * qty]. *)
Definition delta (sd : Side) (qty : spec_float) : spec_float :=
  fmul match sd with buy => one | sell => minus_one end qty.

(** The body of [applyFill] on the position object [pos]. *)
Definition fill_position (pos : Position) (sd : Side)
    (qty price lev : spec_float) : Position :=
  let baseDelta := delta sd qty in
  if feq (base pos) zero || feq (fsign (base pos)) (fsign baseDelta)
  then
    let oldNotional := fmul (fabs (base pos)) (entry pos) in
    let newBase := fadd (base pos) baseDelta in
    let addNotional := fmul (fabs baseDelta) price in
    let entry' :=
      if fne newBase zero
      then fdiv (fadd oldNotional addNotional) (fabs newBase)
      else zero in
    mkPosition (side_of_base newBase) newBase entry' lev (realizedPnl pos)
  else
    let reduce :=
      fmul (fmin (fabs (base pos)) (fabs baseDelta)) (fsign baseDelta) in
    let reducedAbs := fabs reduce in
    let pnlPerUnit :=
      if fgt (base pos) zero
      then fsub price (entry pos)
      else fsub (entry pos) price in
    let realized' := fadd (realizedPnl pos) (fmul pnlPerUnit reducedAbs) in
    let base' := fadd (base pos) baseDelta in
    if feq base' zero
    then mkPosition flat base' zero (leverage pos) realized'
    else if fne (fsign base') (fsign reduce)
    then mkPosition (if fgt base' zero then long else short)
                    base' price lev realized'
    else mkPosition (side pos) base' (entry pos) (leverage pos) realized'.

Definition applyFill (market : Market) (sd : Side)
    (qty price lev : spec_float) (st : State) : State :=
  let '(pos, st) := ensurePos market st in
  set_positions
    (<[market := fill_position pos sd qty price lev]> (positions st)) st.

Definition unrealized (pos : Position) (p : spec_float) : spec_float :=
  if fne (base pos) zero
  then fmul (if fgt (base pos) zero
             then fsub p (entry pos)
             else fsub (entry pos) p)
            (fabs (base pos))
  else zero.

(** [sizeUsd / p] when a [sizeUsd] was given, else
    [Number(params.size ?? 0)]. *)
Definition resolve_qty (params : Params) (p : spec_float) : spec_float :=
  match p_sizeUsd params with
  | Some sizeUsd => fdiv sizeUsd p
  | None => default zero (p_size params)
  end.

(** [!qty || qty <= 0]. *)
Definition invalid_qty (qty : spec_float) : bool :=
  negb (truthy qty) || fle qty zero.

Definition fill_of (now : Z) (params : Params) (qty p : spec_float) : Fill :=
  mkFill now (p_market params) (p_order params) qty p (fmul qty p)
         (default defaultLev (p_leverage params)).

Definition placeOrder (now : Z) (params : Params) (st : State)
  : (Rejection + OrderResult) * State :=
  let market := p_market params in
  let sd := p_order params in
  let lev := default defaultLev (p_leverage params) in
  let pHint := p_price params in
  let '(op, st) := mark market pHint st in
  match op with
  | None => (inl (NoPriceFor market), st)
  | Some p =>
      if negb (truthy p) then (inl (NoPriceFor market), st) else
      let qty := resolve_qty params p in
      if invalid_qty qty then (inl InvalidQty, st) else
      let notional := fmul qty p in
      let maxNotional := fmul (USDC (balances st)) lev in
      if fgt notional maxNotional
      then (inl (ExceedsNotionalLimit notional maxNotional), st) else
      let st := applyFill market sd qty p lev st in
      match positions st !! market with
      | None => (inl TypeError, st)
      | Some pos =>
          let uPnl := unrealized pos p in
          let fill := mkFill now market sd qty p notional lev in
          let st := set_trades (trades st ++ [fill]) st in
          (inr (mkOrderResult market sd qty p lev
                  (mkPositionView (side pos) (base pos) (entry pos)
                                  (realizedPnl pos) uPnl)
                  (balances st) (slice_last 5 (trades st))),
           st)
      end
  end.

Definition reset (st : State) : State :=
  mkState (mkBalances startUSDC) ∅ ∅ [].

End Ledger.

(** The routes, as above. *)
Inductive Response : Type :=
  | Json200 (r : OrderResult) (exchange : option string)
  | Json401 (error : string)
  | Json400 (e : Rejection).

Definition respond (defaultLev : spec_float) (exchange : option string)
    (now : Z) (params : Params) (st : State) : Response * State :=
  match placeOrder defaultLev now params st with
  | (inr r, st) => (Json200 r exchange, st)
  | (inl e, st) => (Json400 e, st)
  end.

Definition post_paper (defaultLev : spec_float) (env : Env) (now : Z)
    (header passphrase : option string) (params : Params) (st : State)
  : Response * State :=
  if credential_refused (WEBHOOK_SECRET env) header
  then (Json401 "bad webhook secret", st)
  else if credential_refused (TRADINGVIEW_PASSPHRASE env) passphrase
  then (Json401 "bad passphrase", st)
  else respond defaultLev None now params st.

Definition status (r : Response) : Z :=
  match r with
  | Json200 _ _ => 200
  | Json401 _ => 401
  | Json400 _ => 400
  end.

Definition accepted (o : Rejection + OrderResult) : bool :=
  match o with
  | inr _ => true
  | inl _ => false
  end.

Definition has_price (o : option spec_float) : bool :=
  match o with
  | Some p => truthy p
  | None => false
  end.

(** Sample values: 10000 USDC, leverage 2, the empty ledger, and the
    binary64 numbers nearest to 0.1 and 0.2. *)
Definition USDC0 : spec_float := of_Z 10000.
Definition lev0 : spec_float := of_Z 2.
Definition ledger0 : State := initial_state USDC0.
Definition tenth : spec_float := fdiv (of_Z 1) (of_Z 10).
Definition fifth : spec_float := fdiv (of_Z 2) (of_Z 10).

(** An order that gives a size and a price. *)
Definition order_size (m : Market) (sd : Side) (size price : spec_float)
    (lev : option spec_float) : Params :=
  mkParams m sd None (Some size) (Some price) lev.

(** An order that gives a size and no price. *)
Definition order_no_price (m : Market) (sd : Side) (size : spec_float)
  : Params :=
  mkParams m sd None (Some size) None None.

(** The ledger after one fill on BTC at leverage 2. *)
Definition ledger_after (sd : Side) (qty price : spec_float) : State :=
  applyFill lev0 "BTC" sd qty price lev0 ledger0.

(** The rational number a finite binary64 value stands for. *)
Definition real_value (x : spec_float) : option Qc :=
  match x with
  | S754_zero _ => Some (Q2Qc 0)
  | S754_finite s m e =>
      Some (Q2Qc (inject_Z (if s then Z.neg m else Z.pos m)
                  * Qpower (inject_Z 2) e))
  | _ => None
  end.

End B64.

(** ** Rational arithmetic helpers *)

Lemma Qc_eq_Qeq (x y : Qc) : x = y <-> (x == y)%Q.
Proof.
  split; [intros ->; reflexivity | apply Qc_is_canon].
Qed.

(** Moves a goal and its hypotheses on [Qc] to [Q], where [lra] works. *)
Ltac qc_to_q :=
  repeat match goal with
         | H : @eq Qc _ _ |- _ => apply Qc_eq_Qeq in H
         | H : not (@eq Qc _ _) |- _ => rewrite Qc_eq_Qeq in H
         | |- @eq Qc _ _ => apply Qc_eq_Qeq
         | |- not (@eq Qc _ _) => rewrite Qc_eq_Qeq
         end;
  unfold Qclt, Qcle, Qcminus, Qcopp, Qcplus, Qcmult, Q2Qc in *;
  cbn [this] in *;
  repeat match goal with
         | H : context [Qred ?q] |- _ => rewrite (Qred_correct q) in H
         | |- context [Qred ?q] => rewrite (Qred_correct q)
         end.

Ltac qc_lra := qc_to_q; lra.

(** Settles a closed equation by running both sides. *)
Ltac by_running :=
  match goal with
  | |- ?x <> ?y =>
      apply (bool_decide_eq_false_1 (x = y)); vm_compute; reflexivity
  | |- ?P => apply (bool_decide_eq_true_1 P); vm_compute; reflexivity
  end.

(** ** Finite numbers *)

Lemma num_sign_pos (q : Qc) : 0 < q -> num_sign (Fin q) = Fin 1.
Proof. intros H. cbn. by case_bool_decide. Qed.

Lemma num_sign_neg (q : Qc) : q < 0 -> num_sign (Fin q) = Fin (- 1).
Proof.
  intros H. cbn. repeat case_bool_decide; try done. exfalso. qc_lra.
Qed.

Lemma num_eq_refl_Fin (q : Qc) : num_eq (Fin q) (Fin q) = true.
Proof. cbn. by case_bool_decide. Qed.

Lemma num_eq_Fin_ne (a b : Qc) : a <> b -> num_eq (Fin a) (Fin b) = false.
Proof. intros H. cbn. by case_bool_decide. Qed.

Lemma one_ne_minus_one : (1 : Qc) <> - 1.
Proof. intros H. qc_lra. Qed.

Lemma Qcabs_of_pos (q : Qc) : 0 < q -> Qcabs q = q.
Proof. intros H. apply Qcabs_pos. by apply Qclt_le_weak. Qed.

Lemma Qcabs_of_neg (q : Qc) : q < 0 -> Qcabs q = - q.
Proof. intros H. apply Qcabs_neg. by apply Qclt_le_weak. Qed.

Lemma Qcabs_mult_1 (x : Qc) : Qcabs (x * 1) = Qcabs x.
Proof. by rewrite Qcmult_1_r. Qed.

Lemma Qcabs_mult_m1 (x : Qc) : Qcabs (x * - 1) = Qcabs x.
Proof.
  rewrite <- (Qcabs_opp x). f_equal. qc_lra.
Qed.

(** ** Frame lemmas of the building blocks *)

Section LedgerFacts.

Variable defaultLev : num.

Lemma mark_fst (m : Market) (price : option num) (st : State) :
  (mark m price st).1 = lastPrice (mark m price st).2 !! m.
Proof. reflexivity. Qed.

Lemma mark_frame (m : Market) (price : option num) (st : State) :
  balances (mark m price st).2 = balances st
  /\ positions (mark m price st).2 = positions st
  /\ trades (mark m price st).2 = trades st.
Proof.
  unfold mark. destruct price as [p|]; [destruct (truthy p)|]; done.
Qed.

Lemma applyFill_lookup (m : Market) (sd : Side) (qty price lev : num)
    (st : State) :
  positions (applyFill defaultLev m sd qty price lev st) !! m
  = Some (fill_position (ensurePos defaultLev m st).1 sd qty price lev).
Proof.
  unfold applyFill. destruct (ensurePos defaultLev m st) as [pos st1]. cbn.
  by rewrite lookup_insert_eq.
Qed.

Lemma applyFill_lookup_ne (m m' : Market) (sd : Side) (qty price lev : num)
    (st : State) :
  m' <> m ->
  positions (applyFill defaultLev m sd qty price lev st) !! m' = positions st !! m'.
Proof.
  intros Hne. unfold applyFill, ensurePos.
  destruct (positions st !! m); cbn; by rewrite !lookup_insert_ne.
Qed.

Lemma applyFill_frame (m : Market) (sd : Side) (qty price lev : num)
    (st : State) :
  balances (applyFill defaultLev m sd qty price lev st) = balances st
  /\ lastPrice (applyFill defaultLev m sd qty price lev st) = lastPrice st
  /\ trades (applyFill defaultLev m sd qty price lev st) = trades st.
Proof.
  unfold applyFill, ensurePos. by destruct (positions st !! m).
Qed.

Lemma ensurePos_mark (m : Market) (price : option num) (st : State) :
  (ensurePos defaultLev m (mark m price st).2).1 = (ensurePos defaultLev m st).1.
Proof.
  unfold ensurePos.
  destruct (mark_frame m price st) as (_ & -> & _).
  by destruct (positions st !! m).
Qed.

(** [placeOrder] by cases: the three rejections and the accepted order.
    The position it reports is the filled position of its market, so the
    read of [state.positions[market]] after [applyFill] never fails. *)
Lemma placeOrder_cases (now : Z) (params : Params) (st : State) :
  let m := p_market params in
  let lev := default defaultLev (p_leverage params) in
  let st1 := (mark m (p_price params) st).2 in
  placeOrder defaultLev now params st =
  match lastPrice st1 !! m with
  | None => (inl (NoPriceFor m), st1)
  | Some p =>
      if negb (truthy p) then (inl (NoPriceFor m), st1) else
      let qty := resolve_qty params p in
      if invalid_qty qty then (inl InvalidQty, st1) else
      let notional := num_mul qty p in
      let maxNotional := num_mul (USDC (balances st)) lev in
      if num_gt notional maxNotional
      then (inl (ExceedsNotionalLimit notional maxNotional), st1) else
      let pos := fill_position (ensurePos defaultLev m st).1
                               (p_order params) qty p lev in
      let ts := trades st ++ [fill_of defaultLev now params qty p] in
      (inr (mkOrderResult m (p_order params) qty p lev
              (mkPositionView (side pos) (base pos) (entry pos)
                              (realizedPnl pos) (unrealized pos p))
              (balances st) (slice_last 5 ts)),
       set_trades ts
         (applyFill defaultLev m (p_order params) qty p lev st1))
  end.
Proof.
  intros m lev st1. unfold placeOrder. fold m lev.
  rewrite (surjective_pairing (mark m (p_price params) st)).
  rewrite mark_fst. fold st1.
  destruct (mark_frame m (p_price params) st) as (Hb & Hp & Ht).
  fold st1 in Hb, Hp, Ht.
  destruct (lastPrice st1 !! m) as [p|]; [|done].
  destruct (truthy p); cbn [negb]; [|done].
  destruct (invalid_qty (resolve_qty params p)); [done|].
  rewrite Hb.
  destruct (num_gt _ _); [done|].
  rewrite applyFill_lookup.
  destruct (applyFill_frame m (p_order params) (resolve_qty params p) p lev st1)
    as (Hb' & _ & Ht').
  unfold set_trades at 1 2. cbn [balances trades].
  rewrite Hb', Ht', Hb, Ht.
  unfold st1 at 1 2 3 4 5. rewrite ensurePos_mark.
  reflexivity.
Qed.

(** ** Properties of [mark] and [placeOrder] *)


(** ** [fill_position] on finite numbers *)

Lemma num_mul_dir (sd : Side) (q : Qc) :
  num_mul match sd with buy => Fin 1 | sell => Fin (- 1) end (Fin q)
  = Fin (delta sd q).
Proof. by destruct sd. Qed.

(** The test that sends [applyFill] to its reduce-or-flip branch fails
    exactly when the position is open and the fill goes against it. *)
Lemma against_test (b d : Qc) :
  (0 < b /\ d < 0) \/ (b < 0 /\ 0 < d) ->
  num_eq (Fin b) (Fin 0) || num_eq (num_sign (Fin b)) (num_sign (Fin d))
  = false.
Proof.
  intros [[Hb Hd] | [Hb Hd]].
  - rewrite (num_sign_pos b), (num_sign_neg d) by done.
    rewrite !num_eq_Fin_ne; [done| apply one_ne_minus_one |].
    intros ->. qc_lra.
  - rewrite (num_sign_neg b), (num_sign_pos d) by done.
    rewrite !num_eq_Fin_ne; [done| |].
    + intros H. symmetry in H. by apply one_ne_minus_one.
    + intros ->. qc_lra.
Qed.

(** Rewrites every [bool_decide] whose proposition linear arithmetic
    settles. *)
Ltac decide_all :=
  repeat match goal with
         | |- context [bool_decide ?P] =>
             first [ rewrite (bool_decide_eq_true_2 P) by qc_lra
                   | rewrite (bool_decide_eq_false_2 P) by (intro; qc_lra) ]
         end.

Lemma fill_position_against (pos : Position) (sd : Side) (b e q p : Qc)
    (lev : num) :
  let d := delta sd q in
  base pos = Fin b ->
  entry pos = Fin e ->
  (0 < b /\ d < 0) \/ (b < 0 /\ 0 < d) ->
  fill_position pos sd (Fin q) (Fin p) lev =
  let r' := num_add (realizedPnl pos)
              (Fin (pnl_per_unit b e p * Qc_min (Qcabs b) (Qcabs d))) in
  if bool_decide (b + d = 0)
  then mkPosition flat (Fin (b + d)) (Fin 0) (leverage pos) r'
  else if bool_decide (Qcabs d < Qcabs b)
  then mkPosition (side_of_base (Fin (b + d))) (Fin (b + d)) (Fin p) lev r'
  else mkPosition (side pos) (Fin (b + d)) (Fin e) (leverage pos) r'.
Proof.
  intros d Hb He Hdir. unfold fill_position.
  rewrite Hb, He, num_mul_dir, against_test by done.
  fold d. unfold pnl_per_unit, Qc_min, side_of_base, num_sub, num_ne.
  cbn.
  destruct Hdir as [[Hb0 Hd0] | [Hb0 Hd0]].
  - rewrite (Qcabs_of_pos b), (Qcabs_of_neg d) by done.
    case_bool_decide as Hz; [|case_bool_decide as Hlt];
      decide_all; cbn; decide_all; cbn;
      rewrite Qcabs_mult_m1, ?Qcabs_opp, ?(Qcabs_of_pos b), ?(Qcabs_of_neg d)
        by done;
      reflexivity.
  - rewrite (Qcabs_of_neg b), (Qcabs_of_pos d) by done.
    case_bool_decide as Hz; [|case_bool_decide as Hlt];
      decide_all; cbn; decide_all; cbn;
      rewrite Qcabs_mult_1, ?Qcabs_opp, ?(Qcabs_of_neg b), ?(Qcabs_of_pos d)
        by done;
      reflexivity.
Qed.



(** A fill against the position that is smaller than it: the realized
    profit is booked on the filled size; the entry price is overwritten
    with the fill price and the leverage with the order's. *)
Lemma fill_position_partial_reduce (pos : Position) (sd : Side)
    (b e q p : Qc) (lev : num) :
  let d := delta sd q in
  base pos = Fin b ->
  entry pos = Fin e ->
  (0 < b /\ d < 0) \/ (b < 0 /\ 0 < d) ->
  Qcabs d < Qcabs b ->
  fill_position pos sd (Fin q) (Fin p) lev =
  mkPosition (side_of_base (Fin (b + d))) (Fin (b + d)) (Fin p) lev
    (num_add (realizedPnl pos) (Fin (pnl_per_unit b e p * Qcabs d))).
Proof.
  intros d Hb He Hdir Hlt.
  rewrite (fill_position_against pos sd b e q p lev Hb He Hdir).
  fold d. cbv zeta. unfold Qc_min.
  rewrite (bool_decide_eq_true_2 _ Hlt).
  rewrite bool_decide_eq_false_2; [done|].
  intros Hz.
  destruct Hdir as [[H1 H2] | [H1 H2]].
  - rewrite (Qcabs_of_pos b), (Qcabs_of_neg d) in Hlt by done. qc_lra.
  - rewrite (Qcabs_of_neg b), (Qcabs_of_pos d) in Hlt by done. qc_lra.
Qed.

(** A fill against the position that is larger than it: the realized
    profit is booked on the closed size and the base changes sign, while
    side, entry price and leverage stay those of the closed position. *)
Lemma fill_position_flip (pos : Position) (sd : Side)
    (b e q p : Qc) (lev : num) :
  let d := delta sd q in
  base pos = Fin b ->
  entry pos = Fin e ->
  (0 < b /\ d < 0) \/ (b < 0 /\ 0 < d) ->
  Qcabs b < Qcabs d ->
  fill_position pos sd (Fin q) (Fin p) lev =
  mkPosition (side pos) (Fin (b + d)) (Fin e) (leverage pos)
    (num_add (realizedPnl pos) (Fin (pnl_per_unit b e p * Qcabs b))).
Proof.
  intros d Hb He Hdir Hlt.
  rewrite (fill_position_against pos sd b e q p lev Hb He Hdir).
  fold d. cbv zeta. unfold Qc_min.
  assert (Hn : ~ Qcabs d < Qcabs b).
  { intros H. apply (Qclt_not_le _ _ H). by apply Qclt_le_weak. }
  rewrite !(bool_decide_eq_false_2 _ Hn).
  rewrite bool_decide_eq_false_2; [done|].
  intros Hz.
  destruct Hdir as [[H1 H2] | [H1 H2]].
  - rewrite (Qcabs_of_pos b), (Qcabs_of_neg d) in Hlt by done. qc_lra.
  - rewrite (Qcabs_of_neg b), (Qcabs_of_pos d) in Hlt by done. qc_lra.
Qed.

End LedgerFacts.

(** ** Runs of the ledger *)

(** C1 at long 5 at 100, sell 8 at 90 with leverage 3: the profit -50 is
    booked and the base becomes -3, but the entry price stays 100 (not
    90), the side stays long (not short) and the leverage stays 2
    (not 3). *)
Theorem flip_keeps_entry_side_leverage :
  positions (ledger_long 5 100) !! "BTC"
  = Some (mkPosition long (of_Z 5) (of_Z 100) lev0 (Fin 0))
  /\ positions (applyFill lev0 "BTC" sell (of_Z 8) (of_Z 90) (of_Z 3)
                  (ledger_long 5 100)) !! "BTC"
     = Some (mkPosition long (of_Z (-3)) (of_Z 100) lev0 (of_Z (-50))).
Proof. split; by_running. Qed.

(** C2 at long 10 at 100, sell 4 at 110 with leverage 3: the profit 40 is
    booked and the base becomes 6, but the entry price becomes 110 (it
    does not stay 100) and the leverage becomes 3. *)
Theorem partial_reduce_overwrites_entry :
  positions (ledger_long 10 100) !! "BTC"
  = Some (mkPosition long (of_Z 10) (of_Z 100) lev0 (Fin 0))
  /\ positions (applyFill lev0 "BTC" sell (of_Z 4) (of_Z 110) (of_Z 3)
                  (ledger_long 10 100)) !! "BTC"
     = Some (mkPosition long (of_Z 6) (of_Z 110) (of_Z 3) (of_Z 40)).
Proof. split; by_running. Qed.

(** C3 at the orders buy 5 at 100, sell 8 at 90: both are accepted, and
    the second one reports and stores side long with base -3. *)
Theorem side_long_with_negative_base :
  exists r1 r2 st,
    placeOrders lev0 0
      [order_size "BTC" buy (of_Z 5) (of_Z 100) None;
       order_size "BTC" sell (of_Z 8) (of_Z 90) None] ledger0
    = ([inr r1; inr r2], st)
    /\ v_side (r_position r2) = long
    /\ v_base (r_position r2) = of_Z (-3)
    /\ positions st !! "BTC"
       = Some (mkPosition long (of_Z (-3)) (of_Z 100) lev0 (of_Z (-50)))
    /\ num_lt (of_Z (-3)) (Fin 0) = true.
Proof.
  eexists _, _, _. split; [vm_compute; reflexivity|].
  repeat split; by_running.
Qed.

(** C4 fails on the code: an order with a price and no size is rejected
    for its quantity, and the ledger it leaves has the price stored. *)
Lemma rejected_order_stores_price :
  (placeOrder lev0 0 (mkParams "BTC" buy None None (Some (of_Z 100)) None)
     ledger0).1 = inl InvalidQty
  /\ lastPrice ledger0 !! "BTC" = None
  /\ lastPrice
       (placeOrder lev0 0 (mkParams "BTC" buy None None (Some (of_Z 100)) None)
          ledger0).2 !! "BTC" = Some (of_Z 100)
  /\ (placeOrder lev0 0 (mkParams "BTC" buy None None (Some (of_Z 100)) None)
        ledger0).2 <> ledger0.
Proof.
  repeat split; by_running.
Qed.

(** C5 fails on the code: a size of plus infinity at price 1 is not
    rejected for its quantity; it is rejected for its notional, and with
    an infinite leverage it is accepted. *)
Lemma infinite_qty_passes_qty_test :
  resolve_qty (order_size "BTC" buy PInf (of_Z 1) None) (of_Z 1) = PInf
  /\ (mark "BTC" (Some (of_Z 1)) ledger0).1 = Some (of_Z 1)
  /\ (placeOrder lev0 0 (order_size "BTC" buy PInf (of_Z 1) None) ledger0).1
     = inl (ExceedsNotionalLimit PInf (of_Z 20000))
  /\ (exists r,
        (placeOrder lev0 0 (order_size "BTC" buy PInf (of_Z 1) (Some PInf))
           ledger0).1 = inr r
        /\ r_qty r = PInf).
Proof.
  split; [reflexivity|]. split; [by_running|]. split.
  - vm_compute. do 2 f_equal. by_running.
  - eexists. split; [vm_compute; reflexivity | reflexivity].
Qed.

(** C8 fails on the code: with 5 stored for the market, a supplied price
    of 0 is neither stored nor returned. *)
Lemma mark_ignores_zero_price :
  mark "BTC" (Some (Fin 0)) (set_lastPrice {["BTC" := of_Z 5]} ledger0)
  = (Some (of_Z 5), set_lastPrice {["BTC" := of_Z 5]} ledger0)
  /\ Some (of_Z 5) <> Some (Fin 0).
Proof.
  split; by_running.
Qed.

(** ** Outcomes of [placeOrder] *)

Section Outcomes.

Variable defaultLev : num.

(** X3: with a leverage that is [NaN] the notional test never fires:
    whatever the size, the order is not rejected for its notional. *)
Theorem nan_leverage_lifts_limit (now : Z) (params : Params) (st : State) :
  p_leverage params = Some NaN ->
  forall n mx,
    (placeOrder defaultLev now params st).1 <> inl (ExceedsNotionalLimit n mx).
Proof.
  intros Hl n mx. rewrite placeOrder_cases. cbv zeta. rewrite Hl. cbn [default].
  destruct (lastPrice _ !! _) as [p|]; [|done].
  destruct (truthy p); cbn [negb]; [|done].
  destruct (invalid_qty _); [done|].
  assert (Hnan : forall x, num_mul x NaN = NaN) by (by intros []).
  rewrite Hnan.
  assert (Hgt : forall x, num_gt x NaN = false) by (by intros []).
  rewrite Hgt. done.
Qed.

(** X4: when the request carries a [sizeUsd], its [size] is ignored: the
    outcome and the state are the same whatever [size] holds. *)
Theorem sizeUsd_takes_precedence (now : Z) (params : Params) (st : State)
    (z : option num) :
  is_Some (p_sizeUsd params) ->
  placeOrder defaultLev now (with_size z params) st
  = placeOrder defaultLev now params st.
Proof.
  intros [s Hs]. rewrite !placeOrder_cases. cbv zeta.
  unfold resolve_qty, fill_of, with_size. cbn [p_market p_order p_sizeUsd
    p_size p_price p_leverage]. rewrite Hs. reflexivity.
Qed.







End Outcomes.

(** ** Invariants of the ledger over runs *)

Section Runs.

Variable defaultLev : num.

Lemma placeOrders_cons (now : Z) (r : Params) (reqs : list Params)
    (st : State) :
  placeOrders defaultLev now (r :: reqs) st
  = ((placeOrder defaultLev now r st).1
       :: (placeOrders defaultLev (now + 1) reqs
             (placeOrder defaultLev now r st).2).1,
     (placeOrders defaultLev (now + 1) reqs
        (placeOrder defaultLev now r st).2).2).
Proof.
  cbn [placeOrders].
  destruct (placeOrder defaultLev now r st) as [o st1]. cbn [fst snd].
  by destruct (placeOrders defaultLev (now + 1) reqs st1).
Qed.

(** What every call keeps, every run keeps. *)
Lemma placeOrders_invariant (I : State -> Prop) :
  (forall now params st, I st -> I (placeOrder defaultLev now params st).2) ->
  forall reqs now st, I st -> I (placeOrders defaultLev now reqs st).2.
Proof.
  intros Hstep reqs. induction reqs as [|r reqs IH]; intros now st Hst.
  - done.
  - rewrite placeOrders_cons. cbn [snd]. by apply IH, Hstep.
Qed.

Lemma placeOrder_lastPrice (now : Z) (params : Params) (st : State) :
  lastPrice (placeOrder defaultLev now params st).2
  = lastPrice (mark (p_market params) (p_price params) st).2.
Proof.
  rewrite placeOrder_cases. cbv zeta.
  destruct (lastPrice _ !! _) as [p|]; [|done].
  destruct (truthy p); cbn [negb]; [|done].
  destruct (invalid_qty _); [done|].
  destruct (num_gt _ _); [done|].
  cbn [snd set_trades lastPrice].
  by destruct (applyFill_frame defaultLev (p_market params) (p_order params)
                 (resolve_qty params p) p
                 (default defaultLev (p_leverage params))
                 (mark (p_market params) (p_price params) st).2)
    as (_ & -> & _).
Qed.

Lemma placeOrder_prices_truthy (now : Z) (params : Params) (st : State) :
  prices_truthy st -> prices_truthy (placeOrder defaultLev now params st).2.
Proof.
  intros Hst m p. rewrite placeOrder_lastPrice. unfold mark.
  destruct (p_price params) as [x|]; [|apply Hst].
  destruct (truthy x) eqn:Hx; [|apply Hst].
  cbn. rewrite lookup_insert. case_decide; [|apply Hst].
  by intros [= <-].
Qed.

(** X8: on a ledger that started empty, whatever orders were placed, no
    stored price is [0] or [NaN]: every stored price is truthy. *)
Theorem stored_prices_truthy (startUSDC : num) (now : Z)
    (reqs : list Params) :
  prices_truthy (placeOrders defaultLev now reqs (initial_state startUSDC)).2.
Proof.
  apply placeOrders_invariant.
  - intros. by apply placeOrder_prices_truthy.
  - intros m p. cbn. by rewrite lookup_empty.
Qed.

Lemma num_mul_dir_not_NaN (sd : Side) (qty : num) :
  qty <> NaN ->
  num_mul match sd with buy => Fin 1 | sell => Fin (- 1) end qty <> NaN.
Proof.
  intros Hq. destruct qty as [| | |q]; [done| | |by destruct sd].
  - destruct sd; by_running.
  - destruct sd; by_running.
Qed.

Lemma num_eq_zero (x : num) : num_eq x (Fin 0) = true -> x = Fin 0.
Proof.
  destruct x as [| | |q]; cbn; try done.
  case_bool_decide; [by subst | done].
Qed.

Lemma side_of_base_flat (x : num) :
  side_of_base x = flat -> x = Fin 0 \/ x = NaN.
Proof.
  destruct x as [| | |q]; unfold side_of_base; cbn; try done; [by right|].
  repeat case_bool_decide; try done.
  intros _. left. f_equal. qc_lra.
Qed.

Lemma same_test_sum_not_NaN (b d : num) :
  num_eq b (Fin 0) || num_eq (num_sign b) (num_sign d) = true ->
  d <> NaN ->
  num_add b d <> NaN.
Proof.
  destruct b as [| | |x], d as [| | |y]; cbn; done.
Qed.

(** Whatever the position and the fill, a resulting base of 0 comes with
    side flat and entry price 0. *)
Lemma fill_position_zero_base (pos : Position) (sd : Side)
    (qty price lev : num) :
  base (fill_position pos sd qty price lev) = Fin 0 ->
  side (fill_position pos sd qty price lev) = flat
  /\ entry (fill_position pos sd qty price lev) = Fin 0.
Proof.
  unfold fill_position.
  set (d := num_mul _ qty).
  destruct (num_eq (base pos) (Fin 0) || _).
  - cbn [base side entry]. intros ->. split; by_running.
  - set (b' := num_add (base pos) d).
    destruct (num_eq b' (Fin 0)) eqn:Hz; [done|].
    destruct (num_ne _ _); cbn [base]; intros Hb;
      rewrite Hb, num_eq_refl_Fin in Hz; done.
Qed.

Lemma fill_position_flat_consistent (pos : Position) (sd : Side)
    (qty price lev : num) :
  flat_consistent pos ->
  qty <> NaN ->
  flat_consistent (fill_position pos sd qty price lev).
Proof.
  intros [Hflat _] Hq. split; [split|]; try apply fill_position_zero_base.
  pose proof (num_mul_dir_not_NaN sd qty Hq) as Hd.
  unfold fill_position.
  set (d := num_mul _ qty) in *.
  destruct (num_eq (base pos) (Fin 0) || _) eqn:Hc.
  - cbn [side base]. intros Hs.
    destruct (side_of_base_flat _ Hs) as [H | H]; [done|].
    by destruct (same_test_sum_not_NaN _ _ Hc Hd).
  - set (b' := num_add (base pos) d).
    destruct (num_eq b' (Fin 0)) eqn:Hz.
    { intros _. by apply num_eq_zero. }
    destruct (num_ne _ _); cbn [side base].
    + by destruct (num_gt b' (Fin 0)).
    + intros Hs. apply Hflat in Hs.
      rewrite Hs, num_eq_refl_Fin in Hc. done.
Qed.

Lemma invalid_qty_not_NaN (qty : num) : invalid_qty qty = false -> qty <> NaN.
Proof. by intros H ->. Qed.

Lemma placeOrder_flat_consistent (now : Z) (params : Params) (st : State) :
  positions_flat_consistent st ->
  positions_flat_consistent (placeOrder defaultLev now params st).2.
Proof.
  intros Hst. rewrite placeOrder_cases. cbv zeta.
  destruct (mark_frame (p_market params) (p_price params) st) as (_ & Hp1 & _).
  set (m := p_market params) in *.
  set (st1 := (mark m (p_price params) st).2) in *.
  assert (H1 : positions_flat_consistent st1).
  { intros k pos. rewrite Hp1. apply Hst. }
  destruct (lastPrice st1 !! m) as [p|]; [|done].
  destruct (truthy p); cbn [negb]; [|done].
  destruct (invalid_qty _) eqn:Hq; [done|].
  destruct (num_gt _ _); [done|].
  cbn [snd]. intros k pos. unfold set_trades. cbn [positions].
  destruct (decide (k = m)) as [-> | Hk].
  - rewrite applyFill_lookup. intros [= <-].
    apply fill_position_flat_consistent; [|by apply invalid_qty_not_NaN].
    unfold ensurePos. destruct (positions st1 !! m) as [pos0|] eqn:E; cbn.
    + by apply (H1 m).
    + split; [done|]. done.
  - rewrite applyFill_lookup_ne by done. apply H1.
Qed.

(** X9: on a ledger that started empty, whatever orders were placed, every
    stored position is marked flat exactly when its base is 0, and a
    position with base 0 has entry price 0. *)
Theorem stored_positions_flat_consistent (startUSDC : num) (now : Z)
    (reqs : list Params) :
  positions_flat_consistent
    (placeOrders defaultLev now reqs (initial_state startUSDC)).2.
Proof.
  apply placeOrders_invariant.
  - intros. by apply placeOrder_flat_consistent.
  - intros m pos. cbn. by rewrite lookup_empty.
Qed.

Lemma placeOrder_trades (now : Z) (params : Params) (st : State) :
  exists fs,
    trades (placeOrder defaultLev now params st).2 = trades st ++ fs
    /\ length fs
       = (if accepted (placeOrder defaultLev now params st).1 then 1 else 0)%nat.
Proof.
  rewrite placeOrder_cases. cbv zeta.
  destruct (mark_frame (p_market params) (p_price params) st) as (_ & _ & Ht).
  destruct (lastPrice _ !! _) as [p|];
    [|exists []; by rewrite app_nil_r].
  destruct (truthy p); cbn [negb]; [|exists []; by rewrite app_nil_r].
  destruct (invalid_qty _); [exists []; by rewrite app_nil_r|].
  destruct (num_gt _ _); [exists []; by rewrite app_nil_r|].
  by eexists (cons _ nil).
Qed.

(** X10: a run of orders only ever appends to the trade history: the
    history it starts from is a prefix of the one it leaves, one fill is
    added per accepted order and none per rejected one, and there is one
    outcome per request. *)
Theorem history_grows_by_accepted (now : Z) (reqs : list Params)
    (st : State) :
  trades st `prefix_of` trades (placeOrders defaultLev now reqs st).2
  /\ length (trades (placeOrders defaultLev now reqs st).2)
     = (length (trades st)
        + length (filter (fun o => accepted o = true)
                         (placeOrders defaultLev now reqs st).1))%nat
  /\ length (placeOrders defaultLev now reqs st).1 = length reqs.
Proof.
  revert now st. induction reqs as [|r reqs IH]; intros now st.
  - cbn. split; [done|]. split; [lia | done].
  - rewrite placeOrders_cons. cbn [fst snd].
    destruct (IH (now + 1)%Z (placeOrder defaultLev now r st).2)
      as (Hpre & Hlen & Hn).
    destruct (placeOrder_trades now r st) as (fs & Hfs & Hl).
    split; [|split].
    + etrans; [|exact Hpre]. rewrite Hfs. by apply prefix_app_r.
    + rewrite Hlen, Hfs, length_app, Hl.
      rewrite filter_cons.
      destruct (accepted (placeOrder defaultLev now r st).1) eqn:Ha.
      * rewrite decide_True by done. cbn [length]. lia.
      * rewrite decide_False by done. lia.
    + cbn [length]. by rewrite Hn.
Qed.

End Runs.

(** ** The paper routes *)

Section Routes.

Variable defaultLev : num.

Lemma respond_state (exchange : option string) (now : Z) (params : Params)
    (st : State) :
  (respond defaultLev exchange now params st).2
  = (placeOrder defaultLev now params st).2
  /\ (status (respond defaultLev exchange now params st).1 = 200%Z
      <-> accepted (placeOrder defaultLev now params st).1 = true)
  /\ status (respond defaultLev exchange now params st).1 <> 401%Z.
Proof.
  unfold respond.
  destruct (placeOrder defaultLev now params st) as [[e | r] st1]; cbn; done.
Qed.

Lemma placeOrder_not_accepted_frame (now : Z) (params : Params) (st : State) :
  accepted (placeOrder defaultLev now params st).1 = false ->
  balances (placeOrder defaultLev now params st).2 = balances st
  /\ positions (placeOrder defaultLev now params st).2 = positions st
  /\ trades (placeOrder defaultLev now params st).2 = trades st.
Proof.
  rewrite placeOrder_cases. cbv zeta.
  pose proof (mark_frame (p_market params) (p_price params) st) as Hf.
  destruct (lastPrice _ !! _) as [p|]; [|done].
  destruct (truthy p); cbn [negb]; [|done].
  destruct (invalid_qty _); [done|].
  destruct (num_gt _ _); done.
Qed.

(** X16: a credential that is not configured, or configured as the empty
    string, is not checked: with both in that state [POST /paper] places
    the order whatever header and passphrase the request carries. *)
Theorem empty_credentials_not_checked (env : Env) (now : Z)
    (header passphrase : option string) (params : Params) (st : State) :
  WEBHOOK_SECRET env = None \/ WEBHOOK_SECRET env = Some "" ->
  TRADINGVIEW_PASSPHRASE env = None \/ TRADINGVIEW_PASSPHRASE env = Some "" ->
  post_paper defaultLev env now header passphrase params st
  = respond defaultLev None now params st
  /\ (post_paper defaultLev env now header passphrase params st).2
     = (placeOrder defaultLev now params st).2.
Proof.
  intros Hs Hp. unfold post_paper.
  assert (H1 : credential_refused (WEBHOOK_SECRET env) header = false)
    by (by destruct Hs as [-> | ->]).
  assert (H2 : credential_refused (TRADINGVIEW_PASSPHRASE env) passphrase
               = false) by (by destruct Hp as [-> | ->]).
  rewrite H1, H2. split; [done|]. apply respond_state.
Qed.

(** X17: [POST /mexc-tv] is [POST /paper-tv] on the same ledger: the same
    status and the same ledger afterwards, the answers differing only by
    the exchange tag of a 200; and [POST /paper] with a matching or
    unchecked webhook secret is [POST /paper-tv]. *)
Theorem mexc_tv_is_paper_tv (env : Env) (now : Z)
    (header passphrase : option string) (params : Params) (st : State) :
  (post_mexc_tv defaultLev env now passphrase params st).2
  = (post_paper_tv defaultLev env now passphrase params st).2
  /\ status (post_mexc_tv defaultLev env now passphrase params st).1
     = status (post_paper_tv defaultLev env now passphrase params st).1
  /\ (forall r tag,
        (post_mexc_tv defaultLev env now passphrase params st).1
        = Json200 r tag ->
        tag = Some "mexc"
        /\ (post_paper_tv defaultLev env now passphrase params st).1
           = Json200 r None)
  /\ (credential_refused (WEBHOOK_SECRET env) header = false ->
      post_paper defaultLev env now header passphrase params st
      = post_paper_tv defaultLev env now passphrase params st).
Proof.
  unfold post_mexc_tv, post_paper_tv, post_paper.
  split; [|split; [|split]].
  - destruct (credential_refused _ passphrase); [done|].
    destruct (respond_state None now params st) as (-> & _).
    by destruct (respond_state (Some "mexc") now params st) as (-> & _).
  - destruct (credential_refused _ passphrase); [done|].
    unfold respond. by destruct (placeOrder _ _ _ _) as [[?|?] ?].
  - intros r tag. destruct (credential_refused _ passphrase); [done|].
    unfold respond. destruct (placeOrder _ _ _ _) as [[?|?] ?]; [done|].
    cbn. by intros [= <- <-].
  - by intros ->.
Qed.

End Routes.

(** ** The volume of a MEXC order *)

Lemma Qc_of_Z_lt (a b : Z) : Qc_of_Z a < Qc_of_Z b <-> (a < b)%Z.
Proof. unfold Qclt. cbn [this Qc_of_Z]. by rewrite Zlt_Qlt. Qed.

Lemma Qc_one_of_Z : (1 : Qc) = Qc_of_Z 1.
Proof. by apply Qc_is_canon. Qed.

Lemma num_max_1_of_Z (n : Z) :
  num_max (Fin 1) (Fin (Qc_of_Z n)) = of_Z (Z.max 1 n).
Proof.
  cbn. rewrite Qc_one_of_Z. unfold of_Z. case_bool_decide as H.
  - apply (proj1 (Qc_of_Z_lt 1 n)) in H. by rewrite Z.max_r by lia.
  - assert (H' : ~ (1 < n)%Z) by (intros H'; by apply H, Qc_of_Z_lt).
    by rewrite Z.max_l by lia.
Qed.

Section AdapterFacts.

Variable Number_of_string : string -> num.

(** X18: the volume sent to MEXC is never below one contract: it is [NaN]
    (exactly when the size read from the body is [NaN]), plus infinity, or
    a whole number that is at least 1. *)
Theorem mexc_vol_at_least_one (sizeUsd size : JsVal) :
  (mexc_vol Number_of_string sizeUsd size = NaN
   <-> mexc_sizeUsd Number_of_string sizeUsd size = NaN)
  /\ (mexc_vol Number_of_string sizeUsd size = NaN
      \/ mexc_vol Number_of_string sizeUsd size = PInf
      \/ exists n : Z,
           (1 <= n)%Z /\ mexc_vol Number_of_string sizeUsd size = of_Z n).
Proof.
  unfold mexc_vol.
  destruct (mexc_sizeUsd Number_of_string sizeUsd size) as [| | |q].
  - split; [done | by left].
  - split; [done | by right; left].
  - split; [done|]. right; right. exists 1%Z. split; [done|]. by_running.
  - cbn [num_floor]. rewrite num_max_1_of_Z. split; [done|].
    right; right. exists (Z.max 1 (Qfloor q)). split; [apply Z.le_max_l | done].
Qed.

(** X19: when neither [sizeUsd] nor [size] is truthy (missing, [null],
    [false], the number 0, [NaN] or the empty string), the volume is 10. *)
Theorem mexc_vol_default (sizeUsd size : JsVal) :
  js_truthy sizeUsd = false ->
  js_truthy size = false ->
  mexc_vol Number_of_string sizeUsd size = of_Z 10.
Proof.
  intros H1 H2. unfold mexc_vol, mexc_sizeUsd. rewrite H1, H2. by_running.
Qed.

(** X20: for a [sizeUsd] that is a finite number other than 0, [size] is
    not looked at and the volume is the size rounded down to a whole
    number, but 1 when that is less: a size below 1, negative ones
    included, gives volume 1, and a size of at least 1 gives a volume
    that is at most the size and exceeds it by less than 1. *)
Theorem mexc_vol_rounds_down (q : Qc) (size : JsVal) :
  q <> 0 ->
  mexc_vol Number_of_string (JsNumber (Fin q)) size
  = of_Z (Z.max 1 (Qfloor q))
  /\ (q < 1 -> mexc_vol Number_of_string (JsNumber (Fin q)) size = of_Z 1)
  /\ (1 <= q ->
      mexc_vol Number_of_string (JsNumber (Fin q)) size = of_Z (Qfloor q)
      /\ Qc_of_Z (Qfloor q) <= q
      /\ q < Qc_of_Z (Qfloor q + 1)).
Proof.
  intros Hq.
  assert (Hv : mexc_vol Number_of_string (JsNumber (Fin q)) size
               = of_Z (Z.max 1 (Qfloor q))).
  { unfold mexc_vol, mexc_sizeUsd. cbn [js_truthy truthy js_Number].
    rewrite bool_decide_eq_false_2 by done. cbn [negb num_floor].
    apply num_max_1_of_Z. }
  rewrite Hv. split; [done|]. split.
  - intros Hlt. f_equal. apply Z.max_l.
    assert (H : (Qfloor q < 1)%Z).
    { rewrite Zlt_Qlt. eapply Qle_lt_trans; [apply Qfloor_le|]. exact Hlt. }
    lia.
  - intros Hle. split; [|split].
    + f_equal. apply Z.max_r.
      rewrite <- (Qfloor_Z 1). apply Qfloor_resp_le. exact Hle.
    + apply Qfloor_le.
    + apply Qlt_floor.
Qed.

End AdapterFacts.

(** ** Positions created on demand *)

Section LazyPositions.

Variable defaultLev : num.

Lemma mark_set_positions (m : Market) (price : option num)
    (ps : gmap Market Position) (st : State) :
  mark m price (set_positions ps st)
  = ((mark m price st).1, set_positions ps (mark m price st).2).
Proof.
  unfold mark. destruct price as [p|]; [destruct (truthy p)|]; done.
Qed.

(** X21: a market without a position is a market with a flat one: an
    order on it has the same outcome as on the ledger where the flat
    position with the default leverage is already stored, and when the
    order is accepted both ledgers end up the same. *)
Theorem absent_position_is_flat (now : Z) (params : Params) (st : State) :
  positions st !! p_market params = None ->
  (placeOrder defaultLev now params
     (ensurePos defaultLev (p_market params) st).2).1
  = (placeOrder defaultLev now params st).1
  /\ (accepted (placeOrder defaultLev now params st).1 = true ->
      (placeOrder defaultLev now params
         (ensurePos defaultLev (p_market params) st).2).2
      = (placeOrder defaultLev now params st).2).
Proof.
  intros Hn. set (m := p_market params) in *.
  assert (He : (ensurePos defaultLev m st).2
               = set_positions
                   (<[m := fresh_position defaultLev]> (positions st)) st)
    by (unfold ensurePos; by rewrite Hn).
  rewrite He. rewrite !placeOrder_cases. cbv zeta. fold m.
  rewrite mark_set_positions. cbn [snd fst].
  destruct (mark_frame m (p_price params) st) as (Hb & Hp & Ht).
  set (st1 := (mark m (p_price params) st).2) in *.
  assert (Hf : (ensurePos defaultLev m
                  (set_positions
                     (<[m := fresh_position defaultLev]> (positions st)) st)).1
               = (ensurePos defaultLev m st).1).
  { unfold ensurePos. cbn [positions set_positions].
    by rewrite lookup_insert_eq, Hn. }
  rewrite Hf. cbn [lastPrice set_positions balances trades].
  destruct (lastPrice st1 !! m) as [p|]; [|done].
  destruct (truthy p); cbn [negb]; [|done].
  destruct (invalid_qty _); [done|].
  destruct (num_gt _ _); [done|].
  cbn [fst snd accepted]. split; [done|]. intros _. f_equal.
  unfold applyFill, ensurePos. cbn [positions set_positions].
  rewrite lookup_insert_eq, Hp, Hn. reflexivity.
Qed.

End LazyPositions.

(** ** The further statements at sample inputs *)

(** With a [NaN] leverage a buy of a million units at 100 is accepted on
    a balance of 10000. *)
Example nan_leverage_order_accepted :
  accepted (placeOrder lev0 0 req_nan_leverage ledger0).1 = true.
Proof. vm_compute. reflexivity. Qed.

Lemma nan_leverage_lifts_limit_at_million :
  p_leverage req_nan_leverage = Some NaN
  /\ forall n mx,
       (placeOrder lev0 0 req_nan_leverage ledger0).1
       <> inl (ExceedsNotionalLimit n mx).
Proof.
  split; [reflexivity|].
  apply (nan_leverage_lifts_limit lev0 0 req_nan_leverage ledger0).
  reflexivity.
Defined.

Lemma sizeUsd_takes_precedence_at_both :
  is_Some (p_sizeUsd req_both_sizes)
  /\ placeOrder lev0 0 (with_size None req_both_sizes) ledger0
     = placeOrder lev0 0 req_both_sizes ledger0.
Proof.
  split; [by eexists|].
  apply (sizeUsd_takes_precedence lev0 0 req_both_sizes ledger0 None).
  by eexists.
Defined.




Lemma empty_credentials_not_checked_at_empty_secret :
  (WEBHOOK_SECRET (mkEnv (Some "") None) = None
   \/ WEBHOOK_SECRET (mkEnv (Some "") None) = Some "")
  /\ (TRADINGVIEW_PASSPHRASE (mkEnv (Some "") None) = None
      \/ TRADINGVIEW_PASSPHRASE (mkEnv (Some "") None) = Some "")
  /\ post_paper lev0 (mkEnv (Some "") None) 0 (Some "guess") None
       req_buy_5_100 ledger0
     = respond lev0 None 0 req_buy_5_100 ledger0
  /\ (post_paper lev0 (mkEnv (Some "") None) 0 (Some "guess") None
        req_buy_5_100 ledger0).2
     = (placeOrder lev0 0 req_buy_5_100 ledger0).2.
Proof.
  split; [by right|]. split; [by left|].
  apply (empty_credentials_not_checked lev0 (mkEnv (Some "") None) 0
           (Some "guess") None req_buy_5_100 ledger0).
  - by right.
  - by left.
Defined.

Lemma mexc_vol_default_at_zero :
  js_truthy (JsNumber (Fin 0)) = false
  /\ js_truthy (JsString "") = false
  /\ mexc_vol (fun _ => NaN) (JsNumber (Fin 0)) (JsString "") = of_Z 10.
Proof.
  split; [reflexivity|]. split; [reflexivity|].
  apply (mexc_vol_default (fun _ => NaN) (JsNumber (Fin 0)) (JsString ""));
    reflexivity.
Defined.

Lemma mexc_vol_rounds_down_at_five_halves :
  Q2Qc (5 # 2) <> 0
  /\ mexc_vol (fun _ => NaN) (JsNumber (Fin (Q2Qc (5 # 2)))) JsUndefined
     = of_Z (Z.max 1 (Qfloor (Q2Qc (5 # 2))))
  /\ (Q2Qc (5 # 2) < 1 ->
      mexc_vol (fun _ => NaN) (JsNumber (Fin (Q2Qc (5 # 2)))) JsUndefined
      = of_Z 1)
  /\ (1 <= Q2Qc (5 # 2) ->
      mexc_vol (fun _ => NaN) (JsNumber (Fin (Q2Qc (5 # 2)))) JsUndefined
      = of_Z (Qfloor (Q2Qc (5 # 2)))
      /\ Qc_of_Z (Qfloor (Q2Qc (5 # 2))) <= Q2Qc (5 # 2)
      /\ Q2Qc (5 # 2) < Qc_of_Z (Qfloor (Q2Qc (5 # 2)) + 1)).
Proof.
  split; [by_running|].
  apply (mexc_vol_rounds_down (fun _ => NaN) (Q2Qc (5 # 2)) JsUndefined).
  by_running.
Defined.

Lemma absent_position_is_flat_at_buy_5 :
  positions ledger0 !! p_market req_buy_5_100 = None
  /\ (placeOrder lev0 0 req_buy_5_100
        (ensurePos lev0 (p_market req_buy_5_100) ledger0).2).1
     = (placeOrder lev0 0 req_buy_5_100 ledger0).1
  /\ (accepted (placeOrder lev0 0 req_buy_5_100 ledger0).1 = true ->
      (placeOrder lev0 0 req_buy_5_100
         (ensurePos lev0 (p_market req_buy_5_100) ledger0).2).2
      = (placeOrder lev0 0 req_buy_5_100 ledger0).2).
Proof.
  split; [reflexivity|].
  apply (absent_position_is_flat lev0 0 req_buy_5_100 ledger0).
  reflexivity.
Defined.

(** ** The ledger in binary64: building blocks *)

Section B64Frame.

Import B64.

Variable defaultLev : spec_float.

Lemma mark_fst64 (m : Market) (price : option spec_float) (st : State) :
  (mark m price st).1 = lastPrice (mark m price st).2 !! m.
Proof. reflexivity. Qed.

Lemma mark_frame64 (m : Market) (price : option spec_float) (st : State) :
  balances (mark m price st).2 = balances st
  /\ positions (mark m price st).2 = positions st
  /\ trades (mark m price st).2 = trades st.
Proof.
  unfold mark. destruct price as [p|]; [destruct (truthy p)|]; done.
Qed.

Lemma mark_lastPrice64 (m : Market) (price : option spec_float) (st : State) :
  lastPrice (mark m price st).2
  = if has_price price then <[m := default zero price]> (lastPrice st)
    else lastPrice st.
Proof.
  unfold mark, has_price.
  destruct price as [p|]; [destruct (truthy p)|]; done.
Qed.

Lemma mark_lookup64 (m : Market) (price : option spec_float) (st : State) :
  (mark m price st).1
  = if has_price price then price else lastPrice st !! m.
Proof.
  unfold mark, has_price.
  destruct price as [p|]; [destruct (truthy p)|]; cbn; try done.
  apply lookup_insert_eq.
Qed.

Lemma applyFill_lookup64 (m : Market) (sd : Side)
    (qty price lev : spec_float) (st : State) :
  positions (applyFill defaultLev m sd qty price lev st) !! m
  = Some (fill_position (ensurePos defaultLev m st).1 sd qty price lev).
Proof.
  unfold applyFill. destruct (ensurePos defaultLev m st) as [pos st1]. cbn.
  by rewrite lookup_insert_eq.
Qed.

Lemma applyFill_lookup_ne64 (m m' : Market) (sd : Side)
    (qty price lev : spec_float) (st : State) :
  m' <> m ->
  positions (applyFill defaultLev m sd qty price lev st) !! m'
  = positions st !! m'.
Proof.
  intros Hne. unfold applyFill, ensurePos.
  destruct (positions st !! m); cbn; by rewrite !lookup_insert_ne.
Qed.

Lemma applyFill_frame64 (m : Market) (sd : Side)
    (qty price lev : spec_float) (st : State) :
  balances (applyFill defaultLev m sd qty price lev st) = balances st
  /\ lastPrice (applyFill defaultLev m sd qty price lev st) = lastPrice st
  /\ trades (applyFill defaultLev m sd qty price lev st) = trades st.
Proof.
  unfold applyFill, ensurePos. by destruct (positions st !! m).
Qed.

Lemma ensurePos_mark64 (m : Market) (price : option spec_float)
    (st : State) :
  (ensurePos defaultLev m (mark m price st).2).1
  = (ensurePos defaultLev m st).1.
Proof.
  unfold ensurePos.
  destruct (mark_frame64 m price st) as (_ & -> & _).
  by destruct (positions st !! m).
Qed.

(** [placeOrder] by cases; the read of [state.positions[market]] after
    [applyFill] never fails. *)
Lemma placeOrder_cases64 (now : Z) (params : Params) (st : State) :
  let m := p_market params in
  let lev := default defaultLev (p_leverage params) in
  let st1 := (mark m (p_price params) st).2 in
  placeOrder defaultLev now params st =
  match lastPrice st1 !! m with
  | None => (inl (NoPriceFor m), st1)
  | Some p =>
      if negb (truthy p) then (inl (NoPriceFor m), st1) else
      let qty := resolve_qty params p in
      if invalid_qty qty then (inl InvalidQty, st1) else
      let notional := fmul qty p in
      let maxNotional := fmul (USDC (balances st)) lev in
      if fgt notional maxNotional
      then (inl (ExceedsNotionalLimit notional maxNotional), st1) else
      let pos := fill_position (ensurePos defaultLev m st).1
                               (p_order params) qty p lev in
      let ts := trades st ++ [fill_of defaultLev now params qty p] in
      (inr (mkOrderResult m (p_order params) qty p lev
              (mkPositionView (side pos) (base pos) (entry pos)
                              (realizedPnl pos) (unrealized pos p))
              (balances st) (slice_last 5 ts)),
       set_trades ts
         (applyFill defaultLev m (p_order params) qty p lev st1))
  end.
Proof.
  intros m lev st1. unfold placeOrder. fold m lev.
  rewrite (surjective_pairing (mark m (p_price params) st)).
  rewrite mark_fst64. fold st1.
  destruct (mark_frame64 m (p_price params) st) as (Hb & Hp & Ht).
  fold st1 in Hb, Hp, Ht.
  destruct (lastPrice st1 !! m) as [p|]; [|done].
  destruct (truthy p); cbn [negb]; [|done].
  destruct (invalid_qty (resolve_qty params p)); [done|].
  rewrite Hb.
  destruct (fgt _ _); [done|].
  rewrite applyFill_lookup64.
  destruct (applyFill_frame64 m (p_order params) (resolve_qty params p) p
              lev st1) as (Hb' & _ & Ht').
  unfold set_trades at 1 2. cbn [balances trades].
  rewrite Hb', Ht', Hb, Ht.
  unfold st1 at 1 2 3 4 5. rewrite ensurePos_mark64.
  reflexivity.
Qed.

(** What can be said of every call, whatever it returns. *)
Lemma placeOrder_lastPrice64 (now : Z) (params : Params) (st : State) :
  lastPrice (placeOrder defaultLev now params st).2
  = lastPrice (mark (p_market params) (p_price params) st).2.
Proof.
  rewrite placeOrder_cases64. cbv zeta.
  destruct (lastPrice _ !! _) as [p|]; [|done].
  destruct (truthy p); cbn [negb]; [|done].
  destruct (invalid_qty _); [done|].
  destruct (fgt _ _); [done|].
  cbn [snd set_trades lastPrice].
  by destruct (applyFill_frame64 (p_market params) (p_order params)
                 (resolve_qty params p) p
                 (default defaultLev (p_leverage params))
                 (mark (p_market params) (p_price params) st).2)
    as (_ & -> & _).
Qed.

Lemma placeOrder_not_accepted64 (now : Z) (params : Params) (st : State) :
  accepted (placeOrder defaultLev now params st).1 = false ->
  (placeOrder defaultLev now params st).2
  = (mark (p_market params) (p_price params) st).2.
Proof.
  rewrite placeOrder_cases64. cbv zeta.
  destruct (lastPrice _ !! _) as [p|]; [|done].
  destruct (truthy p); cbn [negb]; [|done].
  destruct (invalid_qty _); [done|].
  destruct (fgt _ _); done.
Qed.

End B64Frame.

(** ** The ledger in binary64: [mark] and [placeOrder] *)

Section B64Outcomes.

Import B64.

Variable startUSDC : spec_float.
Variable defaultLev : spec_float.

(** C8, as the code has it: for a market that is an ordinary key, a
    supplied price that is truthy (not [NaN], [+0] or [-0]) overwrites
    [lastPrice[market]] and is returned; a supplied price that is falsy,
    like an omitted one, changes nothing and the stored value (possibly
    absent) is returned. *)
Theorem mark_stores_truthy_price (m : Market) (p : spec_float) (st : State) :
  ordinary_key m = true ->
  truthy p = true ->
  mark m (Some p) st = (Some p, set_lastPrice (<[m := p]> (lastPrice st)) st)
  /\ mark m None st = (lastPrice st !! m, st)
  /\ (forall z : spec_float, truthy z = false ->
        mark m (Some z) st = (lastPrice st !! m, st)).
Proof.
  intros _ Hp. unfold mark. rewrite Hp. cbn.
  rewrite lookup_insert_eq. split; [done|]. split; [done|].
  intros z Hz. by rewrite Hz.
Qed.

(** C4, as the code has it: for a market that is an ordinary key, a
    rejected [placeOrder] leaves the balance, the positions and the trade
    history as they were, and leaves [lastPrice] as [mark] left it:
    unchanged, except that a truthy price supplied with the order is stored
    for the order's market.  A rejection for a missing price leaves the
    whole state unchanged. *)
Theorem rejected_order_frame (now : Z) (params : Params)
    (st st' : State) (e : Rejection) :
  ordinary_key (p_market params) = true ->
  placeOrder defaultLev now params st = (inl e, st') ->
  balances st' = balances st
  /\ positions st' = positions st
  /\ trades st' = trades st
  /\ lastPrice st'
     = match p_price params with
       | Some p => if truthy p
                   then <[p_market params := p]> (lastPrice st)
                   else lastPrice st
       | None => lastPrice st
       end
  /\ (forall m, e = NoPriceFor m -> st' = st).
Proof.
  intros _ H.
  assert (Ha : accepted (placeOrder defaultLev now params st).1 = false)
    by (by rewrite H).
  pose proof (placeOrder_not_accepted64 defaultLev now params st Ha) as Hs.
  rewrite H in Hs. cbn [snd] in Hs. subst st'.
  destruct (mark_frame64 (p_market params) (p_price params) st)
    as (Hb & Hp & Ht).
  split; [done|]. split; [done|]. split; [done|]. split.
  - unfold mark. destruct (p_price params) as [p|]; [destruct (truthy p)|];
      done.
  - intros m ->. revert H. rewrite placeOrder_cases64. cbv zeta.
    rewrite <- mark_fst64, mark_lookup64.
    unfold mark, has_price.
    destruct (p_price params) as [p|]; [destruct (truthy p) eqn:Htp|];
      try done.
    rewrite Htp. cbn [negb].
    destruct (invalid_qty _); [by intros [=]|].
    by destruct (fgt _ _); intros [=].
Qed.

(** X22: an order on a market [m] that is an ordinary key leaves the
    position and the stored price of every other market as they were, and
    what it returns depends on the rest of the ledger only through the
    balance, the trade history and the price and position of [m]. *)
Theorem order_touches_own_market_only (now : Z) (params : Params)
    (st st2 : State) (m' : Market) :
  ordinary_key (p_market params) = true ->
  m' <> p_market params ->
  balances st2 = balances st ->
  trades st2 = trades st ->
  lastPrice st2 !! p_market params = lastPrice st !! p_market params ->
  positions st2 !! p_market params = positions st !! p_market params ->
  (positions (placeOrder defaultLev now params st).2 !! m' = positions st !! m'
   /\ lastPrice (placeOrder defaultLev now params st).2 !! m'
      = lastPrice st !! m')
  /\ (placeOrder defaultLev now params st2).1
     = (placeOrder defaultLev now params st).1.
Proof.
  intros _ Hne Hb Ht Hl Hp.
  split; [split|].
  - clear Hb Ht Hl Hp. rewrite placeOrder_cases64. cbv zeta.
    destruct (mark_frame64 (p_market params) (p_price params) st)
      as (_ & Hp1 & _).
    destruct (lastPrice _ !! p_market params) as [p|];
      [|by cbn [snd]; rewrite Hp1].
    destruct (truthy p); cbn [negb]; [|by cbn [snd]; rewrite Hp1].
    destruct (invalid_qty _); [by cbn [snd]; rewrite Hp1|].
    destruct (fgt _ _); [by cbn [snd]; rewrite Hp1|].
    cbn [snd set_trades positions].
    rewrite applyFill_lookup_ne64 by done. by rewrite Hp1.
  - rewrite placeOrder_lastPrice64, mark_lastPrice64.
    destruct (has_price _); [|done]. by rewrite lookup_insert_ne.
  - rewrite !placeOrder_cases64. cbv zeta.
    rewrite <- !mark_fst64, !mark_lookup64, Hl, Hb, Ht.
    assert (He : (ensurePos defaultLev (p_market params) st2).1
                 = (ensurePos defaultLev (p_market params) st).1).
    { unfold ensurePos. rewrite Hp.
      by destruct (positions st !! p_market params). }
    rewrite He.
    destruct (if has_price _ then _ else _) as [p|]; [|done].
    destruct (truthy p); cbn [negb]; [|done].
    destruct (invalid_qty _); [done|].
    by destruct (fgt _ _).
Qed.

(** X1: for a market that is an ordinary key, [placeOrder] throws the
    no-price error exactly when the request carries no truthy price and no
    truthy price is stored for the market; the error names the market of
    the request. *)
Theorem no_price_rejection64 (now : Z) (params : Params) (st : State) :
  ordinary_key (p_market params) = true ->
  ((exists m, (placeOrder defaultLev now params st).1 = inl (NoPriceFor m))
   <-> has_price (p_price params) = false
       /\ has_price (lastPrice st !! p_market params) = false)
  /\ (forall m, (placeOrder defaultLev now params st).1 = inl (NoPriceFor m)
                -> m = p_market params).
Proof.
  intros _. rewrite placeOrder_cases64. cbv zeta.
  rewrite <- mark_fst64, mark_lookup64.
  set (m := p_market params).
  destruct (has_price (p_price params)) eqn:Hh.
  - destruct (p_price params) as [p|]; [|done]. cbn in Hh. rewrite Hh.
    cbn [negb]. destruct (invalid_qty _); [|destruct (fgt _ _)]; cbn;
      (split; [split; [intros [? [=]] | intros [[=] _]] | intros ? [=]]).
  - destruct (lastPrice st !! m) as [p|] eqn:Hs; cbn.
    + destruct (truthy p) eqn:Hp; cbn [negb].
      * destruct (invalid_qty _); [|destruct (fgt _ _)]; cbn;
          (split; [split; [intros [? [=]] | intros [_ [=]]] | intros ? [=]]).
      * cbn. split; [split; [done | by exists m] | by intros ? [= <-]].
    + split; [split; [done | by exists m] | by intros ? [= <-]].
Qed.

(** X2: for a market that is an ordinary key, [placeOrder] accepts an
    order exactly when a truthy price is resolved, the resolved quantity
    passes the quantity test and the binary64 product [qty * p] is not
    greater than the binary64 product [USDC * leverage]; it never throws
    anything but its own three errors. *)
Theorem acceptance_criterion64 (now : Z) (params : Params) (st : State) :
  ordinary_key (p_market params) = true ->
  (accepted (placeOrder defaultLev now params st).1 = true
   <-> exists p,
         (mark (p_market params) (p_price params) st).1 = Some p
         /\ truthy p = true
         /\ invalid_qty (resolve_qty params p) = false
         /\ fgt (fmul (resolve_qty params p) p)
                (fmul (USDC (balances st))
                      (default defaultLev (p_leverage params)))
            = false)
  /\ (placeOrder defaultLev now params st).1 <> inl TypeError.
Proof.
  intros _. rewrite placeOrder_cases64. cbv zeta. rewrite <- mark_fst64.
  destruct ((mark (p_market params) (p_price params) st).1) as [p|].
  2: { cbn. split; [|done]. split; [done | by intros (? & [=] & _)]. }
  destruct (truthy p) eqn:Hp; cbn [negb].
  2: { cbn. split; [|done]. split; [done|].
       intros (? & [= <-] & ? & _). congruence. }
  destruct (invalid_qty (resolve_qty params p)) eqn:Hq.
  { cbn. split; [|done]. split; [done|].
    intros (? & [= <-] & _ & ? & _). congruence. }
  destruct (fgt _ _) eqn:Hn; cbn.
  - split; [|done]. split; [done|].
    intros (? & [= <-] & _ & _ & ?). congruence.
  - split; [|done]. split; [|done]. intros _. by exists p.
Qed.

(** X13: for a market that is an ordinary key, a truthy price sent with an
    order is the price of the next order on that market that carries none,
    whether the first order was accepted or rejected: the second order is
    never rejected for a missing price, and when it is accepted it is
    filled at the remembered price. *)
Theorem price_remembered64 (now now' : Z) (params params' : Params)
    (st : State) (x : spec_float) :
  ordinary_key (p_market params) = true ->
  p_price params = Some x ->
  truthy x = true ->
  p_market params' = p_market params ->
  p_price params' = None ->
  let st1 := (placeOrder defaultLev now params st).2 in
  (forall m, (placeOrder defaultLev now' params' st1).1 <> inl (NoPriceFor m))
  /\ (forall r, (placeOrder defaultLev now' params' st1).1 = inr r ->
                r_price r = x).
Proof.
  intros _ Hx Ht Hm Hn st1.
  assert (Hl : lastPrice st1 !! p_market params = Some x).
  { unfold st1. rewrite placeOrder_lastPrice64, mark_lastPrice64.
    rewrite Hx. cbn [has_price default]. rewrite Ht. apply lookup_insert_eq. }
  rewrite placeOrder_cases64. cbv zeta. rewrite Hm, Hn.
  assert (Hmk : (mark (p_market params) None st1).2 = st1) by done.
  rewrite Hmk, Hl, Ht. cbn [negb].
  destruct (invalid_qty _); [split; [done | by intros ? [=]]|].
  destruct (fgt _ _); [split; [done | by intros ? [=]]|].
  cbn [fst]. split; [done|]. by intros r [= <-].
Qed.

(** X14: [reset] forgets everything but the configured balance: whatever
    the ledger held, right after it an order without a truthy price on a
    market that is an ordinary key is rejected for its missing price and
    the ledger stays the initial one, and [reset] twice is [reset] once. *)
Theorem reset_forgets_prices64 (now : Z) (params : Params) (st : State) :
  ordinary_key (p_market params) = true ->
  has_price (p_price params) = false ->
  placeOrder defaultLev now params (reset startUSDC st)
  = (inl (NoPriceFor (p_market params)), initial_state startUSDC)
  /\ reset startUSDC (reset startUSDC st) = reset startUSDC st.
Proof.
  intros _ Hp. split; [|done].
  rewrite placeOrder_cases64. cbv zeta. unfold reset, mark.
  destruct (p_price params) as [x|]; cbn in Hp |- *.
  - rewrite Hp. cbn. by rewrite lookup_empty.
  - by rewrite lookup_empty.
Qed.

(** X15: for an order on a market that is an ordinary key, [POST /paper]
    answers 401 exactly when a configured, non-empty credential is not
    matched; the webhook secret is checked first, so a wrong secret is
    reported whatever the passphrase; a 401 leaves the whole ledger
    untouched, and any answer other than 200 leaves the balance, the
    positions and the trade history untouched. *)
Theorem post_paper_unauthorized64 (env : Env) (now : Z)
    (header passphrase : option string) (params : Params) (st : State) :
  ordinary_key (p_market params) = true ->
  let out := post_paper defaultLev env now header passphrase params st in
  (status out.1 = 401%Z
   <-> credential_refused (WEBHOOK_SECRET env) header
       || credential_refused (TRADINGVIEW_PASSPHRASE env) passphrase = true)
  /\ (credential_refused (WEBHOOK_SECRET env) header = true ->
      out.1 = Json401 "bad webhook secret")
  /\ (status out.1 = 401%Z -> out.2 = st)
  /\ (status out.1 <> 200%Z ->
      balances out.2 = balances st
      /\ positions out.2 = positions st
      /\ trades out.2 = trades st).
Proof.
  intros _ out. unfold out, post_paper.
  destruct (credential_refused (WEBHOOK_SECRET env) header); [by cbn|].
  destruct (credential_refused (TRADINGVIEW_PASSPHRASE env) passphrase);
    [by cbn|].
  cbn [orb]. unfold respond.
  pose proof (placeOrder_not_accepted64 defaultLev now params st) as Hn.
  destruct (placeOrder defaultLev now params st) as [[e | r] st1];
    cbn [fst snd status accepted] in *.
  - split; [done|]. split; [done|]. split; [done|]. intros _.
    rewrite Hn by done. apply mark_frame64.
  - split; [done|]. split; [done|]. split; done.
Qed.

Lemma invalid_qty_spec64 (x : spec_float) :
  invalid_qty x = true <-> nan_zero_or_negative x.
Proof.
  destruct x as [s | s | | s m e]; cbn; try done;
    destruct s; cbn; split; done.
Qed.

(** C5, as the code has it: for a market that is an ordinary key, when a
    price is resolved, [placeOrder] throws the invalid-quantity error
    exactly when the resolved quantity, as computed in binary64, is [NaN],
    a zero or negative (minus infinity included).  Plus infinity passes
    this test. *)
Theorem invalid_qty_rejection64 (now : Z) (params : Params) (st : State)
    (p : spec_float) :
  ordinary_key (p_market params) = true ->
  (mark (p_market params) (p_price params) st).1 = Some p ->
  truthy p = true ->
  ((placeOrder defaultLev now params st).1 = inl InvalidQty
   <-> nan_zero_or_negative (resolve_qty params p))
  /\ ~ nan_zero_or_negative (S754_infinity false).
Proof.
  intros _ Hm Hp. split; [|done]. rewrite <- invalid_qty_spec64.
  rewrite placeOrder_cases64. cbv zeta. rewrite <- mark_fst64, Hm, Hp.
  cbn [negb].
  destruct (invalid_qty (resolve_qty params p)); [done|].
  destruct (fgt _ _); cbn; split; done.
Qed.

End B64Outcomes.

(** ** Binary64 arithmetic of [applyFill]

    [valid_binary prec emax x = true] says that [x] is a binary64 value:
    a finite [spec_float] is one when its mantissa and exponent are in the
    range of the format, and the zeros, the infinities and [NaN] always
    are.  Every number of the program is such a value. *)

Section B64Arithmetic.

Import B64.

Variable defaultLev : spec_float.

Lemma digits_shift52 (m : positive) :
  Zdigits2 (Zpos (Pos.mul 4503599627370496 m))
  = (Zpos (digits2_pos m) + 52)%Z.
Proof. cbv [Pos.mul]. cbn [Zdigits2 digits2_pos]. lia. Qed.

Lemma shr_52 (m : positive) :
  SpecFloat.iter_pos shr_1 52
    (Build_shr_record (Zpos (Pos.mul 4503599627370496 m)) false false)
  = Build_shr_record (Zpos m) false false.
Proof. cbv [Pos.mul SpecFloat.iter_pos shr_1 orb]. reflexivity. Qed.

(** Multiplying by 1 or -1 is exact. *)
Lemma fmul_one_finite (s s1 : bool) (m : positive) (e : Z) :
  valid_binary prec emax (S754_finite s m e) = true ->
  fmul (S754_finite s1 4503599627370496 (-52)) (S754_finite s m e)
  = S754_finite (xorb s1 s) m e.
Proof.
  cbn [valid_binary]. unfold bounded, canonical_mantissa.
  intros H. apply andb_prop in H as [Hc Hb]. apply Z.eqb_eq in Hc.
  unfold fmul, SFmul, binary_round_aux.
  unfold shr_fexp at 1. rewrite digits_shift52.
  replace (fexp prec emax (Z.pos (digits2_pos m) + 52 + (-52 + e))
           - (-52 + e))%Z with 52%Z.
  2: { replace (Z.pos (digits2_pos m) + 52 + (-52 + e))%Z
         with (Z.pos (digits2_pos m) + e)%Z by lia.
       rewrite Hc. lia. }
  cbn [shr shr_record_of_loc]. rewrite shr_52.
  cbn [loc_of_shr_record shr_m shr_r shr_s round_nearest_even].
  replace (-52 + e + 52)%Z with e by lia.
  unfold shr_fexp. cbn [Zdigits2]. rewrite Hc. rewrite Z.sub_diag.
  cbn [shr shr_record_of_loc shr_m]. rewrite Hb. reflexivity.
Qed.

Lemma fmul_finite_one (s s1 : bool) (m : positive) (e : Z) :
  valid_binary prec emax (S754_finite s m e) = true ->
  fmul (S754_finite s m e) (S754_finite s1 4503599627370496 (-52))
  = S754_finite (xorb s s1) m e.
Proof.
  intros H. rewrite (xorb_comm s s1), <- (fmul_one_finite s s1 m e H).
  unfold fmul, SFmul.
  by rewrite (Pos.mul_comm m), (Z.add_comm e), (xorb_comm s).
Qed.

(** [x + (-x)] is [+0]. *)
Lemma fadd_opp_finite (s : bool) (m : positive) (e : Z) :
  fadd (S754_finite s m e) (S754_finite (negb s) m e) = S754_zero false.
Proof.
  unfold fadd, SFadd. rewrite Z.min_id. unfold shl_align. rewrite Z.sub_diag.
  cbn [fst]. destruct s; cbn [negb cond_Zopp];
  rewrite ?Z.add_opp_diag_l, ?Z.add_opp_diag_r; reflexivity.
Qed.

(** [dir * qty] is the quantity, with its sign changed for a sell. *)
Lemma delta_exact (sd : Side) (q : spec_float) :
  valid_binary prec emax q = true ->
  delta sd q = match sd with buy => q | sell => SFopp q end.
Proof.
  intros Hv. unfold delta, one, minus_one.
  destruct q as [s | s | | s m e].
  - by destruct sd, s.
  - by destruct sd, s.
  - by destruct sd.
  - destruct sd; rewrite (fmul_one_finite _ _ _ _ Hv); by destruct s.
Qed.

Lemma fabs_delta (sd : Side) (q : spec_float) :
  valid_binary prec emax q = true ->
  fabs (delta sd q) = fabs q.
Proof.
  intros Hv. rewrite (delta_exact sd q Hv).
  destruct sd; [done|]. by destruct q.
Qed.

Lemma feq_zero (x : spec_float) :
  feq x zero = true <-> exists s, x = S754_zero s.
Proof.
  destruct x as [s | s | | s m e]; cbn.
  - split; [by exists s | done].
  - destruct s; cbn; split; try done; by intros [? ?].
  - split; [done | by intros [? ?]].
  - destruct s; cbn; split; try done; by intros [? ?].
Qed.

Lemma fsign_positive (x : spec_float) :
  positive_value x -> fsign x = one /\ fgt x zero = true.
Proof. destruct x as [s | s | | s m e]; cbn; try done; by intros ->. Qed.

Lemma fsign_negative (x : spec_float) :
  negative_value x ->
  fsign x = minus_one /\ fgt x zero = false /\ feq x zero = false.
Proof. destruct x as [s | s | | s m e]; cbn; try done; by intros ->. Qed.

Lemma positive_not_zero (x : spec_float) :
  positive_value x -> feq x zero = false.
Proof. destruct x as [s | s | | s m e]; cbn; try done; by intros ->. Qed.

(** The weighted-average branch of [applyFill]. *)
Lemma fill_position_same64 (pos : Position) (sd : Side)
    (q p lev : spec_float) :
  let d := delta sd q in
  feq (base pos) zero = true
  \/ (positive_value (base pos) /\ positive_value d)
  \/ (negative_value (base pos) /\ negative_value d) ->
  fill_position pos sd q p lev
  = mkPosition (side_of_base (fadd (base pos) d)) (fadd (base pos) d)
      (if feq (fadd (base pos) d) zero then zero
       else fdiv (fadd (fmul (fabs (base pos)) (entry pos))
                       (fmul (fabs d) p))
                 (fabs (fadd (base pos) d)))
      lev (realizedPnl pos).
Proof.
  intros d Hdir. unfold fill_position. fold d.
  assert (Hg : feq (base pos) zero || feq (fsign (base pos)) (fsign d)
               = true).
  { destruct Hdir as [-> | [[Hb Hd] | [Hb Hd]]]; [done| |].
    - apply fsign_positive in Hb as [-> _], Hd as [-> _].
      apply orb_true_r.
    - apply fsign_negative in Hb as (-> & _), Hd as (-> & _).
      apply orb_true_r. }
  rewrite Hg. unfold fne, feq.
  by destruct (SFeqb (fadd (base pos) d) zero).
Qed.

(** The closing branch of [applyFill], for a fill of exactly the size of
    the position. *)
Lemma fill_position_full_close64 (pos : Position) (sd : Side)
    (q p lev : spec_float) (s : bool) (m : positive) (e : Z) :
  valid_binary prec emax (base pos) = true ->
  base pos = S754_finite s m e ->
  delta sd q = S754_finite (negb s) m e ->
  fill_position pos sd q p lev
  = mkPosition flat zero zero (leverage pos)
      (fadd (realizedPnl pos)
            (fmul (if s then fsub (entry pos) p else fsub p (entry pos))
                  (S754_finite false m e))).
Proof.
  intros Hv Hb Hd. unfold fill_position. rewrite Hd, Hb.
  rewrite Hb in Hv.
  assert (Hm : fmin (fabs (S754_finite s m e))
                    (fabs (S754_finite (negb s) m e))
               = S754_finite false m e).
  { unfold fmin, fabs, SFabs.
    by destruct (SFltb (S754_finite false m e) (S754_finite false m e)). }
  rewrite Hm.
  assert (Hr : fabs (fmul (S754_finite false m e)
                          (fsign (S754_finite (negb s) m e)))
               = S754_finite false m e).
  { cbn [fsign]. unfold one, minus_one.
    destruct (negb s); by rewrite (fmul_finite_one false _ m e Hv). }
  rewrite Hr, fadd_opp_finite.
  by destruct s.
Qed.


Lemma valid_fabs (x : spec_float) :
  valid_binary prec emax (fabs x) = valid_binary prec emax x.
Proof. by destruct x. Qed.

Lemma valid_delta (sd : Side) (q : spec_float) :
  valid_binary prec emax q = true ->
  valid_binary prec emax (delta sd q) = true.
Proof.
  intros Hv. rewrite (delta_exact sd q Hv). destruct sd; [done|].
  by destruct q.
Qed.

(** The size booked by a fill against a position is the smaller of the
    two sizes. *)
Lemma reduced_size (b d : spec_float) :
  valid_binary prec emax b = true ->
  valid_binary prec emax d = true ->
  (positive_value b /\ negative_value d)
  \/ (negative_value b /\ positive_value d) ->
  fabs (fmul (fmin (fabs b) (fabs d)) (fsign d)) = fmin (fabs b) (fabs d).
Proof.
  intros Hb Hd Hdir.
  assert (Hm : fmin (fabs b) (fabs d) = fabs b
               \/ fmin (fabs b) (fabs d) = fabs d).
  { destruct b as [sb | sb | | sb mb eb], d as [sd' | sd' | | sd' md ed];
      try (exfalso; clear Hb Hd; cbn in Hdir; tauto);
      unfold fmin, fabs, SFabs;
      match goal with |- context [SFltb ?x ?y] => destruct (SFltb x y) end;
      tauto. }
  assert (Hs : exists s1, fsign d = S754_finite s1 4503599627370496 (-52)).
  { destruct d as [sd' | sd' | | sd' md ed];
      try (exfalso; clear Hb Hd; cbn in Hdir; tauto);
      cbn; destruct sd'; by eexists. }
  destruct Hs as [s1 ->].
  assert (Hx : forall x, valid_binary prec emax x = true ->
                 positive_value x \/ negative_value x ->
                 fabs (fmul (fabs x) (S754_finite s1 4503599627370496 (-52)))
                 = fabs x).
  { intros x Hv Hx. destruct x as [sx | sx | | sx mx ex];
      try (exfalso; clear Hv; cbn in Hx; tauto).
    - by destruct s1.
    - cbn [fabs SFabs]. by rewrite (fmul_finite_one false s1 mx ex Hv). }
  destruct Hm as [-> | ->]; apply Hx; try done; tauto.
Qed.

(** C6, in binary64: for a market that is an ordinary key, a fill in the
    direction of the open exposure, or one that opens from a zero base,
    moves the base to the rounded sum [base + delta], where [delta] is the
    quantity with the sign of the order, and sets the entry price to the
    weighted average computed in binary64, every product, sum and quotient
    rounded: [(|base| * entry + |qty| * price) / |base + delta|], and to 0
    when the new base is a zero. *)
Theorem same_direction_entry64 (m : Market) (sd : Side)
    (q p lev : spec_float) (st : State) :
  let pos := (ensurePos defaultLev m st).1 in
  let d := delta sd q in
  ordinary_key m = true ->
  valid_binary prec emax q = true ->
  feq (base pos) zero = true
  \/ (positive_value (base pos) /\ positive_value d)
  \/ (negative_value (base pos) /\ negative_value d) ->
  d = match sd with buy => q | sell => SFopp q end
  /\ exists pos',
       positions (applyFill defaultLev m sd q p lev st) !! m = Some pos'
       /\ base pos' = fadd (base pos) d
       /\ entry pos'
          = if feq (fadd (base pos) d) zero then zero
            else fdiv (fadd (fmul (fabs (base pos)) (entry pos))
                            (fmul (fabs q) p))
                      (fabs (fadd (base pos) d)).
Proof.
  intros pos d _ Hv Hdir. split; [by apply delta_exact|].
  rewrite applyFill_lookup64. fold pos. eexists; split; [reflexivity|].
  rewrite (fill_position_same64 pos sd q p lev Hdir). fold d.
  cbn [base entry]. by rewrite <- (fabs_delta sd q Hv).
Qed.


(** X11, in binary64: for a market that is an ordinary key, a fill against
    an open position (partial reduce, full close or flip alike) moves the
    base to the rounded sum [base + delta] and adds to the realized profit
    the rounded product of the profit per unit (price - entry for a long,
    entry - price for a short, rounded) and [min(|base|, |delta|)]. *)
Theorem against_fill_books_pnl64 (m : Market) (sd : Side)
    (q p lev : spec_float) (st : State) :
  let pos := (ensurePos defaultLev m st).1 in
  let d := delta sd q in
  ordinary_key m = true ->
  valid_binary prec emax (base pos) = true ->
  valid_binary prec emax q = true ->
  (positive_value (base pos) /\ negative_value d)
  \/ (negative_value (base pos) /\ positive_value d) ->
  exists pos',
    positions (applyFill defaultLev m sd q p lev st) !! m = Some pos'
    /\ base pos' = fadd (base pos) d
    /\ realizedPnl pos'
       = fadd (realizedPnl pos)
              (fmul (if fgt (base pos) zero
                     then fsub p (entry pos)
                     else fsub (entry pos) p)
                    (fmin (fabs (base pos)) (fabs q))).
Proof.
  intros pos d _ Hvb Hvq Hdir.
  rewrite applyFill_lookup64. fold pos. eexists; split; [reflexivity|].
  unfold fill_position. fold d.
  assert (Hg : feq (base pos) zero || feq (fsign (base pos)) (fsign d)
               = false).
  { destruct Hdir as [[Hb Hd] | [Hb Hd]].
    - rewrite (positive_not_zero _ Hb).
      apply fsign_positive in Hb as [-> _].
      by apply fsign_negative in Hd as (-> & _).
    - pose proof (fsign_negative _ Hb) as (-> & _ & ->).
      by apply fsign_positive in Hd as [-> _]. }
  rewrite Hg.
  rewrite (reduced_size (base pos) d Hvb (valid_delta sd q Hvq) Hdir).
  assert (Hq : fabs d = fabs q) by (by apply fabs_delta).
  rewrite !Hq.
  destruct (feq (fadd (base pos) d) zero); [done|].
  by destruct (fne _ _).
Qed.

(** X12, in binary64: for a market that is an ordinary key, a fill against
    an open finite position of exactly its size leaves the position flat
    with base [+0] and entry price 0, keeps its leverage (the order's
    leverage is not stored) and adds to the realized profit the rounded
    product of the rounded profit per unit and the size. *)
Theorem full_close_flattens64 (m : Market) (sd : Side)
    (q p lev : spec_float) (st : State)
    (s : bool) (mb : positive) (eb : Z) :
  let pos := (ensurePos defaultLev m st).1 in
  ordinary_key m = true ->
  valid_binary prec emax (base pos) = true ->
  base pos = S754_finite s mb eb ->
  delta sd q = S754_finite (negb s) mb eb ->
  positions (applyFill defaultLev m sd q p lev st) !! m
  = Some (mkPosition flat zero zero (leverage pos)
            (fadd (realizedPnl pos)
                  (fmul (if s then fsub (entry pos) p
                         else fsub p (entry pos))
                        (S754_finite false mb eb)))).
Proof.
  intros pos _ Hv Hb Hd.
  rewrite applyFill_lookup64. fold pos.
  by rewrite (fill_position_full_close64 pos sd q p lev s mb eb Hv Hb Hd).
Qed.

End B64Arithmetic.

(** ** Runs of the ledger in binary64 *)

Section B64Runs.

Import B64.

(** From long 10 at 100, a buy of 10 at 120 gives long 20 at 110. *)
Example buy_10_at_100_buy_10_at_120_in_binary64 :
  positions (applyFill lev0 "BTC" buy (of_Z 10) (of_Z 120) lev0
               (ledger_after buy (of_Z 10) (of_Z 100))) !! "BTC"
  = Some (mkPosition long (of_Z 20) (of_Z 110) lev0 zero).
Proof. by_running. Qed.

(** C6 fails on the code: after a buy of 0.1 at 100, a buy of 0.2 at the
    same price 100 stores an entry price that is not the weighted average
    of the two fills (which is 100), and a base that is not the sum of the
    two sizes: the code rounds every operation, and stores
    99.99999999999999 and 0.30000000000000004. *)
Lemma entry_is_rounded_average :
  exists pos1 pos2 b e d p,
    positions (ledger_after buy tenth (of_Z 100)) !! "BTC" = Some pos1
    /\ positions (applyFill lev0 "BTC" buy fifth (of_Z 100) lev0
                    (ledger_after buy tenth (of_Z 100))) !! "BTC"
       = Some pos2
    /\ real_value (base pos1) = Some b
    /\ real_value (entry pos1) = Some e
    /\ real_value (delta buy fifth) = Some d
    /\ real_value (of_Z 100) = Some p
    /\ (Qcabs b * e + Qcabs d * p) / Qcabs (b + d) = Q2Qc 100
    /\ entry pos2 = S754_finite false 7036874417766399 (-46)
    /\ real_value (entry pos2)
       <> Some ((Qcabs b * e + Qcabs d * p) / Qcabs (b + d))
    /\ base pos2 = S754_finite false 5404319552844596 (-54)
    /\ real_value (base pos2) <> Some (b + d).
Proof.
  do 6 eexists.
  split; [vm_compute; reflexivity|]. split; [vm_compute; reflexivity|].
  split; [vm_compute; reflexivity|]. split; [vm_compute; reflexivity|].
  split; [vm_compute; reflexivity|]. split; [vm_compute; reflexivity|].
  split; [by_running|]. split; [by_running|]. split; [by_running|].
  split; by_running.
Qed.


(** A notional that underflows: 5e-324 USD at price 2 resolves to the
    quantity 0 and is rejected for its quantity. *)
Example underflowing_quantity_is_invalid :
  resolve_qty (mkParams "BTC" buy (Some (S754_finite false 1 (-1074))) None
                 (Some (of_Z 2)) None) (of_Z 2) = zero
  /\ (placeOrder lev0 0
        (mkParams "BTC" buy (Some (S754_finite false 1 (-1074))) None
           (Some (of_Z 2)) None) ledger0).1 = inl InvalidQty.
Proof. split; by_running. Qed.

(** A quotient that is rounded up: 20000 USD at price 145 resolves to a
    quantity whose notional is above 20000, and the order is rejected for
    its notional although the cap is 20000. *)
Example rounded_notional_exceeds_cap :
  (placeOrder lev0 0
     (mkParams "BTC" buy (Some (of_Z 20000)) None (Some (of_Z 145)) None)
     ledger0).1
  = inl (ExceedsNotionalLimit (S754_finite false 5497558138880001 (-38))
                              (of_Z 20000)).
Proof. by_running. Qed.

Lemma mark_stores_truthy_price_at_5 :
  mark "BTC" (Some (of_Z 5)) ledger0
  = (Some (of_Z 5), set_lastPrice (<["BTC" := of_Z 5]> (lastPrice ledger0))
                      ledger0)
  /\ mark "BTC" None ledger0 = (lastPrice ledger0 !! "BTC", ledger0)
  /\ (forall z : spec_float, truthy z = false ->
        mark "BTC" (Some z) ledger0 = (lastPrice ledger0 !! "BTC", ledger0)).
Proof.
  apply (mark_stores_truthy_price "BTC" (of_Z 5) ledger0); reflexivity.
Defined.

Lemma rejected_order_frame_at_zero_size :
  placeOrder lev0 0 (order_size "BTC" buy zero (of_Z 100) None) ledger0
  = (inl InvalidQty,
     set_lastPrice (<["BTC" := of_Z 100]> (lastPrice ledger0)) ledger0)
  /\ balances
       (set_lastPrice (<["BTC" := of_Z 100]> (lastPrice ledger0)) ledger0)
     = balances ledger0
  /\ positions
       (set_lastPrice (<["BTC" := of_Z 100]> (lastPrice ledger0)) ledger0)
     = positions ledger0
  /\ trades
       (set_lastPrice (<["BTC" := of_Z 100]> (lastPrice ledger0)) ledger0)
     = trades ledger0
  /\ lastPrice
       (set_lastPrice (<["BTC" := of_Z 100]> (lastPrice ledger0)) ledger0)
     = match p_price (order_size "BTC" buy zero (of_Z 100) None) with
       | Some p =>
           if truthy p
           then <[p_market (order_size "BTC" buy zero (of_Z 100) None) := p]>
                  (lastPrice ledger0)
           else lastPrice ledger0
       | None => lastPrice ledger0
       end
  /\ (forall m, InvalidQty = NoPriceFor m ->
        set_lastPrice (<["BTC" := of_Z 100]> (lastPrice ledger0)) ledger0
        = ledger0).
Proof.
  assert (H : placeOrder lev0 0 (order_size "BTC" buy zero (of_Z 100) None)
                ledger0
              = (inl InvalidQty,
                 set_lastPrice (<["BTC" := of_Z 100]> (lastPrice ledger0))
                   ledger0)) by reflexivity.
  split; [exact H|].
  exact (rejected_order_frame lev0 0
           (order_size "BTC" buy zero (of_Z 100) None) ledger0 _ InvalidQty
           eq_refl H).
Defined.

Lemma invalid_qty_rejection64_at_zero_size :
  ((placeOrder lev0 0 (order_size "BTC" buy zero (of_Z 100) None) ledger0).1
   = inl InvalidQty
   <-> nan_zero_or_negative
         (resolve_qty (order_size "BTC" buy zero (of_Z 100) None) (of_Z 100)))
  /\ ~ nan_zero_or_negative (S754_infinity false).
Proof.
  apply (invalid_qty_rejection64 lev0 0
           (order_size "BTC" buy zero (of_Z 100) None) ledger0 (of_Z 100));
    reflexivity.
Defined.

Lemma order_touches_own_market_only_at_btc_eth :
  (positions
     (placeOrder lev0 0 (order_size "BTC" sell (of_Z 2) (of_Z 110) None)
        (ledger_after buy (of_Z 5) (of_Z 100))).2 !! "ETH"
   = positions (ledger_after buy (of_Z 5) (of_Z 100)) !! "ETH"
   /\ lastPrice
        (placeOrder lev0 0 (order_size "BTC" sell (of_Z 2) (of_Z 110) None)
           (ledger_after buy (of_Z 5) (of_Z 100))).2 !! "ETH"
      = lastPrice (ledger_after buy (of_Z 5) (of_Z 100)) !! "ETH")
  /\ (placeOrder lev0 0 (order_size "BTC" sell (of_Z 2) (of_Z 110) None)
        (set_lastPrice (<["ETH" := of_Z 7]>
                          (lastPrice (ledger_after buy (of_Z 5) (of_Z 100))))
           (ledger_after buy (of_Z 5) (of_Z 100)))).1
     = (placeOrder lev0 0 (order_size "BTC" sell (of_Z 2) (of_Z 110) None)
          (ledger_after buy (of_Z 5) (of_Z 100))).1.
Proof.
  apply (order_touches_own_market_only lev0 0
           (order_size "BTC" sell (of_Z 2) (of_Z 110) None)
           (ledger_after buy (of_Z 5) (of_Z 100))
           (set_lastPrice (<["ETH" := of_Z 7]>
                             (lastPrice (ledger_after buy (of_Z 5) (of_Z 100))))
              (ledger_after buy (of_Z 5) (of_Z 100)))
           "ETH"); try reflexivity.
  by_running.
Defined.

Lemma no_price_rejection64_at_sell_8 :
  ((exists m,
      (placeOrder lev0 0 (order_no_price "BTC" sell (of_Z 8)) ledger0).1
      = inl (NoPriceFor m))
   <-> has_price (p_price (order_no_price "BTC" sell (of_Z 8))) = false
       /\ has_price
            (lastPrice ledger0 !! p_market (order_no_price "BTC" sell (of_Z 8)))
          = false)
  /\ (forall m,
        (placeOrder lev0 0 (order_no_price "BTC" sell (of_Z 8)) ledger0).1
        = inl (NoPriceFor m) ->
        m = p_market (order_no_price "BTC" sell (of_Z 8))).
Proof.
  apply (no_price_rejection64 lev0 0 (order_no_price "BTC" sell (of_Z 8))
           ledger0).
  reflexivity.
Defined.

Lemma acceptance_criterion64_at_buy_5 :
  (accepted
     (placeOrder lev0 0 (order_size "BTC" buy (of_Z 5) (of_Z 100) None)
        ledger0).1 = true
   <-> exists p,
         (mark (p_market (order_size "BTC" buy (of_Z 5) (of_Z 100) None))
            (p_price (order_size "BTC" buy (of_Z 5) (of_Z 100) None))
            ledger0).1 = Some p
         /\ truthy p = true
         /\ invalid_qty
              (resolve_qty (order_size "BTC" buy (of_Z 5) (of_Z 100) None) p)
            = false
         /\ fgt (fmul (resolve_qty
                         (order_size "BTC" buy (of_Z 5) (of_Z 100) None) p) p)
                (fmul (USDC (balances ledger0))
                      (default lev0
                         (p_leverage
                            (order_size "BTC" buy (of_Z 5) (of_Z 100) None))))
            = false)
  /\ (placeOrder lev0 0 (order_size "BTC" buy (of_Z 5) (of_Z 100) None)
        ledger0).1 <> inl TypeError.
Proof.
  apply (acceptance_criterion64 lev0 0
           (order_size "BTC" buy (of_Z 5) (of_Z 100) None) ledger0).
  reflexivity.
Defined.

Lemma price_remembered64_at_buy_then_sell :
  (forall m,
     (placeOrder lev0 1 (order_no_price "BTC" sell (of_Z 8))
        (placeOrder lev0 0 (order_size "BTC" buy (of_Z 5) (of_Z 100) None)
           ledger0).2).1
     <> inl (NoPriceFor m))
  /\ (forall r,
        (placeOrder lev0 1 (order_no_price "BTC" sell (of_Z 8))
           (placeOrder lev0 0 (order_size "BTC" buy (of_Z 5) (of_Z 100) None)
              ledger0).2).1 = inr r ->
        r_price r = of_Z 100).
Proof.
  apply (price_remembered64 lev0 0 1
           (order_size "BTC" buy (of_Z 5) (of_Z 100) None)
           (order_no_price "BTC" sell (of_Z 8)) ledger0 (of_Z 100));
    reflexivity.
Defined.

Lemma reset_forgets_prices64_at_long_5 :
  placeOrder lev0 0 (order_no_price "BTC" sell (of_Z 8))
    (reset USDC0 (ledger_after buy (of_Z 5) (of_Z 100)))
  = (inl (NoPriceFor (p_market (order_no_price "BTC" sell (of_Z 8)))),
     initial_state USDC0)
  /\ reset USDC0 (reset USDC0 (ledger_after buy (of_Z 5) (of_Z 100)))
     = reset USDC0 (ledger_after buy (of_Z 5) (of_Z 100)).
Proof.
  apply (reset_forgets_prices64 USDC0 lev0 0
           (order_no_price "BTC" sell (of_Z 8))
           (ledger_after buy (of_Z 5) (of_Z 100)));
    reflexivity.
Defined.

Lemma post_paper_unauthorized64_at_wrong_secret :
  status
    (post_paper lev0 (mkEnv (Some "s3cret") None) 0 (Some "guess") None
       (order_size "BTC" buy (of_Z 5) (of_Z 100) None) ledger0).1 = 401%Z
  /\ (post_paper lev0 (mkEnv (Some "s3cret") None) 0 (Some "guess") None
        (order_size "BTC" buy (of_Z 5) (of_Z 100) None) ledger0).2 = ledger0.
Proof.
  destruct (post_paper_unauthorized64 lev0 (mkEnv (Some "s3cret") None) 0
              (Some "guess") None
              (order_size "BTC" buy (of_Z 5) (of_Z 100) None) ledger0
              eq_refl) as (H401 & _ & Hst & _).
  assert (H : status
                (post_paper lev0 (mkEnv (Some "s3cret") None) 0
                   (Some "guess") None
                   (order_size "BTC" buy (of_Z 5) (of_Z 100) None)
                   ledger0).1 = 401%Z)
    by (apply H401; reflexivity).
  split; [exact H | exact (Hst H)].
Defined.

Lemma same_direction_entry64_at_10_100_10_120 :
  delta buy (of_Z 10) = of_Z 10
  /\ exists pos',
       positions (applyFill lev0 "BTC" buy (of_Z 10) (of_Z 120) lev0
                    (ledger_after buy (of_Z 10) (of_Z 100))) !! "BTC"
       = Some pos'
       /\ base pos'
          = fadd (base (ensurePos lev0 "BTC"
                          (ledger_after buy (of_Z 10) (of_Z 100))).1)
                 (delta buy (of_Z 10))
       /\ entry pos'
          = if feq (fadd (base (ensurePos lev0 "BTC"
                                  (ledger_after buy (of_Z 10) (of_Z 100))).1)
                         (delta buy (of_Z 10))) zero
            then zero
            else fdiv
                   (fadd
                      (fmul
                         (fabs (base (ensurePos lev0 "BTC"
                                        (ledger_after buy (of_Z 10)
                                           (of_Z 100))).1))
                         (entry (ensurePos lev0 "BTC"
                                   (ledger_after buy (of_Z 10) (of_Z 100))).1))
                      (fmul (fabs (of_Z 10)) (of_Z 120)))
                   (fabs (fadd (base (ensurePos lev0 "BTC"
                                        (ledger_after buy (of_Z 10)
                                           (of_Z 100))).1)
                               (delta buy (of_Z 10)))).
Proof.
  apply (same_direction_entry64 lev0 "BTC" buy (of_Z 10) (of_Z 120) lev0
           (ledger_after buy (of_Z 10) (of_Z 100))).
  - reflexivity.
  - reflexivity.
  - right; left. split; reflexivity.
Defined.


Lemma against_fill_books_pnl64_at_10_100_sell_4 :
  exists pos',
    positions (applyFill lev0 "BTC" sell (of_Z 4) (of_Z 110) lev0
                 (ledger_after buy (of_Z 10) (of_Z 100))) !! "BTC"
    = Some pos'
    /\ base pos' = of_Z 6
    /\ realizedPnl pos' = of_Z 40.
Proof.
  destruct (against_fill_books_pnl64 lev0 "BTC" sell (of_Z 4) (of_Z 110) lev0
              (ledger_after buy (of_Z 10) (of_Z 100))
              eq_refl eq_refl eq_refl
              (or_introl (conj eq_refl eq_refl)))
    as (pos' & Hl & Hb & Hr).
  exists pos'. split; [exact Hl|].
  split; [rewrite Hb | rewrite Hr]; by_running.
Defined.

Lemma full_close_flattens64_at_10_100_sell_10 :
  positions (applyFill lev0 "BTC" sell (of_Z 10) (of_Z 110) lev0
               (ledger_after buy (of_Z 10) (of_Z 100))) !! "BTC"
  = Some (mkPosition flat zero zero lev0 (of_Z 100)).
Proof.
  rewrite (full_close_flattens64 lev0 "BTC" sell (of_Z 10) (of_Z 110) lev0
             (ledger_after buy (of_Z 10) (of_Z 100))
             false 5629499534213120 (-49) eq_refl eq_refl eq_refl eq_refl).
  by_running.
Defined.

End B64Runs.
